(** * NLP task pipeline: orchestration services and webhook dispatcher

    A shallow embedding of the service layer of the repository
    (app/services/*.py over app/models/database.py, app/schemas.py and
    app/core/config.py) and the properties of its task state machine,
    content cache, batch coordinator, context provider and webhook
    dispatcher.

    Conventions of the embedding.
    - The record store (the SQLAlchemy session) is a record of row lists;
      a query [filter(...).first()] is [find] and an attribute write on a
      row object followed by [db.commit()] is an update of every row with
      that primary key.  The store is taken to be available: [db.commit()]
      does not raise.
    - Everything outside the services (the inference API, the similarity
      index, subscriber endpoints, hashing, identifier generation) is read from
      a [World]; each external call appends one [Event] to the log of the
      state and its outcome is the world's answer at the position of that
      event in the log.
    - A Python function that may raise is a computation in the monad [M]:
      a state transformer whose result is a value or an exception, the
      state written so far being kept when it raises. *)

From Stdlib Require Import String Ascii List ZArith QArith Bool Lia Arith.
From Stdlib Require Import RelationClasses DecimalString DecimalNat.
Import ListNotations.

Set Warnings "-register-all".
Local Open Scope string_scope.
Local Open Scope Z_scope.

(** ** JSON values (what [json.loads] yields and [json.dumps] accepts) *)

Inductive JSON : Type :=
| JNull
| JBool (b : bool)
| JNum (z : Z)
| JStr (s : string)
| JList (l : list JSON)
| JDict (d : list (string * JSON)).

(** Python truthiness of a decoded JSON value. *)
Definition truthy (j : JSON) : bool :=
  match j with
  | JNull => false
  | JBool b => b
  | JNum z => negb (z =? 0)
  | JStr s => negb (s =? "")%string
  | JList l => match l with [] => false | _ => true end
  | JDict d => match d with [] => false | _ => true end
  end.

(** [d[k] = v] on a Python dict: an existing key keeps its position. *)
Fixpoint dict_set (k : string) (v : JSON) (d : list (string * JSON))
  : list (string * JSON) :=
  match d with
  | [] => [(k, v)]
  | (k', v') :: d' =>
      if (k' =? k)%string then (k, v) :: d' else (k', v') :: dict_set k v d'
  end.

Fixpoint dict_get (k : string) (d : list (string * JSON)) : option JSON :=
  match d with
  | [] => None
  | (k', v) :: d' => if (k' =? k)%string then Some v else dict_get k d'
  end.

(** A Python value that is [None] or a JSON value: [None] and JSON null are
    the same Python object. *)
Definition of_py (j : JSON) : option JSON :=
  match j with JNull => None | _ => Some j end.

Definition to_py (o : option JSON) : JSON :=
  match o with None => JNull | Some j => j end.

Definition py_str (o : option string) : JSON :=
  match o with None => JNull | Some s => JStr s end.

(** ** app/core/config.py *)

Record Settings : Type := {
  PROJECT_NAME : string;
  ULTRASAFE_MAX_RETRIES : nat;
  RAG_TOP_K : Z;
  RAG_SCORE_THRESHOLD : Q;
  CACHE_TTL : Z;
  CACHE_ENABLED : bool;
  CACHE_PREFIX : string;
  MAX_WEBHOOK_FAILURES : Z
}.

Definition default_settings : Settings := {|
  PROJECT_NAME := "NLP Pipeline API";
  ULTRASAFE_MAX_RETRIES := 3;
  RAG_TOP_K := 3;
  RAG_SCORE_THRESHOLD := 7 # 10;
  CACHE_TTL := 3600;
  CACHE_ENABLED := true;
  CACHE_PREFIX := "nlp_pipeline";
  MAX_WEBHOOK_FAILURES := 3
|}.

(** ** app/schemas.py *)

Inductive TaskStatus : Type :=
| PENDING | PROCESSING | COMPLETED | FAILED | CANCELLED.

Definition status_eqb (a b : TaskStatus) : bool :=
  match a, b with
  | PENDING, PENDING | PROCESSING, PROCESSING | COMPLETED, COMPLETED
  | FAILED, FAILED | CANCELLED, CANCELLED => true
  | _, _ => false
  end.

Definition terminal (s : TaskStatus) : bool :=
  match s with COMPLETED | FAILED | CANCELLED => true | _ => false end.

(** ** app/models/database.py

    The rows as the services use them.  [updated_at] is left to the record
    store.  The services construct a [BatchJob] with a [webhook_url] and read
    it back, so the row has that field although the model does not declare
    the column; [task.parameters], which the services only read, is an
    answer of the world (see [task_parameters] below). *)

Module Task.
Record t : Type := {
  id : string;
  task_type : string;
  status : TaskStatus;
  input_text : string;
  input_hash : string;
  result : option JSON;
  error : option string;
  created_at : Z;
  completed_at : option Z;
  processing_time : option Z;
  batch_job_id : option string
}.

Definition set_status (s : TaskStatus) (x : t) : t :=
  {| id := id x; task_type := task_type x; status := s;
     input_text := input_text x; input_hash := input_hash x;
     result := result x; error := error x; created_at := created_at x;
     completed_at := completed_at x; processing_time := processing_time x;
     batch_job_id := batch_job_id x |}.

Definition set_result (r : option JSON) (x : t) : t :=
  {| id := id x; task_type := task_type x; status := status x;
     input_text := input_text x; input_hash := input_hash x;
     result := r; error := error x; created_at := created_at x;
     completed_at := completed_at x; processing_time := processing_time x;
     batch_job_id := batch_job_id x |}.

Definition set_error (e : option string) (x : t) : t :=
  {| id := id x; task_type := task_type x; status := status x;
     input_text := input_text x; input_hash := input_hash x;
     result := result x; error := e; created_at := created_at x;
     completed_at := completed_at x; processing_time := processing_time x;
     batch_job_id := batch_job_id x |}.

Definition set_completed_at (now : Z) (x : t) : t :=
  {| id := id x; task_type := task_type x; status := status x;
     input_text := input_text x; input_hash := input_hash x;
     result := result x; error := error x; created_at := created_at x;
     completed_at := Some now;
     processing_time := Some (now - created_at x);
     batch_job_id := batch_job_id x |}.
End Task.

Module BatchJob.
Record t : Type := {
  id : string;
  status : TaskStatus;
  total_tasks : Z;
  completed_tasks : Z;
  failed_tasks : Z;
  results : option JSON;
  error : option string;
  created_at : Z;
  completed_at : option Z;
  processing_time : option Z;
  webhook_url : option string
}.

Definition set_status (s : TaskStatus) (x : t) : t :=
  {| id := id x; status := s; total_tasks := total_tasks x;
     completed_tasks := completed_tasks x; failed_tasks := failed_tasks x;
     results := results x; error := error x; created_at := created_at x;
     completed_at := completed_at x; processing_time := processing_time x;
     webhook_url := webhook_url x |}.

Definition incr_completed (x : t) : t :=
  {| id := id x; status := status x; total_tasks := total_tasks x;
     completed_tasks := completed_tasks x + 1; failed_tasks := failed_tasks x;
     results := results x; error := error x; created_at := created_at x;
     completed_at := completed_at x; processing_time := processing_time x;
     webhook_url := webhook_url x |}.

Definition incr_failed (x : t) : t :=
  {| id := id x; status := status x; total_tasks := total_tasks x;
     completed_tasks := completed_tasks x; failed_tasks := failed_tasks x + 1;
     results := results x; error := error x; created_at := created_at x;
     completed_at := completed_at x; processing_time := processing_time x;
     webhook_url := webhook_url x |}.

(** Lines 253-256 of task_service.py. *)
Definition complete (rs : JSON) (now : Z) (x : t) : t :=
  {| id := id x; status := COMPLETED; total_tasks := total_tasks x;
     completed_tasks := completed_tasks x; failed_tasks := failed_tasks x;
     results := Some rs; error := error x; created_at := created_at x;
     completed_at := Some now; processing_time := Some (now - created_at x);
     webhook_url := webhook_url x |}.

(** Lines 273-274 of task_service.py. *)
Definition fail (msg : string) (x : t) : t :=
  {| id := id x; status := FAILED; total_tasks := total_tasks x;
     completed_tasks := completed_tasks x; failed_tasks := failed_tasks x;
     results := results x; error := Some msg; created_at := created_at x;
     completed_at := completed_at x; processing_time := processing_time x;
     webhook_url := webhook_url x |}.
End BatchJob.

Module Webhook.
Record t : Type := {
  id : string;
  url : string;
  events : list string;
  description : option string;
  secret : string;
  is_active : bool;
  failure_count : Z;
  last_triggered : option Z;
  last_status : option Z
}.

(** Lines 52-54 of webhook_service.py. *)
Definition delivered (now code : Z) (x : t) : t :=
  {| id := id x; url := url x; events := events x;
     description := description x; secret := secret x;
     is_active := is_active x; failure_count := 0;
     last_triggered := Some now; last_status := Some code |}.

(** Lines 71-72 of webhook_service.py. *)
Definition http_failed (code : option Z) (x : t) : t :=
  {| id := id x; url := url x; events := events x;
     description := description x; secret := secret x;
     is_active := is_active x; failure_count := failure_count x + 1;
     last_triggered := last_triggered x; last_status := code |}.

(** Line 92 of webhook_service.py. *)
Definition other_failed (x : t) : t :=
  {| id := id x; url := url x; events := events x;
     description := description x; secret := secret x;
     is_active := is_active x; failure_count := failure_count x + 1;
     last_triggered := last_triggered x; last_status := last_status x |}.

(** Line 76 of webhook_service.py. *)
Definition deactivate (x : t) : t :=
  {| id := id x; url := url x; events := events x;
     description := description x; secret := secret x;
     is_active := false; failure_count := failure_count x;
     last_triggered := last_triggered x; last_status := last_status x |}.

Definition set_events (ev : list string) (x : t) : t :=
  {| id := id x; url := url x; events := ev;
     description := description x; secret := secret x;
     is_active := is_active x; failure_count := failure_count x;
     last_triggered := last_triggered x; last_status := last_status x |}.
End Webhook.

(** ** Exceptions, external events and the world *)

(** The Python exceptions the services meet.  All of them derive from
    [Exception]; [HTTPError] stands for the [httpx.HTTPError] hierarchy and
    carries what [getattr(e.response, "status_code", None)] reads. *)
Inductive exn : Type :=
| AttributeError (msg : string)
| KeyError (key : string)
| TypeError (msg : string)
| ValueError (msg : string)
| NameError (name : string)
| HTTPError (code : option Z) (msg : string)
| OtherException (msg : string).

(** [str(e)]. *)
Definition str (e : exn) : string :=
  match e with
  | AttributeError m | TypeError m | ValueError m | OtherException m => m
  | HTTPError _ m => m
  | KeyError k => "'" ++ k ++ "'"
  | NameError n => "name '" ++ n ++ "' is not defined"
  end.

Definition is_http_error (e : exn) : bool :=
  match e with HTTPError _ _ => true | _ => false end.

(** What an HTTP exchange with a subscriber endpoint or with the inference
    API comes to: a response that passes [raise_for_status], or an exception
    raised inside the [try] block. *)
Inductive Response : Type :=
| Responded (code : Z) (body : JSON)
| Failed (e : exn).

(** One scored match of the similarity index. *)
Record Match : Type := {
  match_id : string;
  match_score : Q;
  match_metadata : list (string * JSON)
}.

(** The calls that leave the process. *)
Inductive Event : Type :=
| EvGateway (endpoint : string) (data : list (string * JSON))
| EvApiRequest (endpoint : string) (data : list (string * JSON))
| EvSearch (query : string) (top_k : Z)
| EvPost (url : string) (payload : JSON) (webhook_id signature : string).

(** The world: configuration, library functions and the answers of the
    external collaborators.  An answer is indexed by the position of the
    call in the log, so that a collaborator may answer the same request
    differently over time.

    [task_parameters] is what [task.parameters] evaluates to for the row
    with the given id: models/database.py declares no such column and
    [create_task] does not hand its [parameters] argument to the row, so the
    value is not determined by the services; [None] is the case where
    reading the attribute raises [AttributeError]. *)
Record World : Type := {
  settings : Settings;
  sha256_hexdigest : string -> string;
  hmac_sha256_hexdigest : string -> string -> string;
  json_dumps_sorted : JSON -> string;
  uuid4 : nat -> string;
  token_urlsafe : nat -> string;
  url_scheme : string -> option string;
  api_response : nat -> string -> list (string * JSON) -> Response;
  index_query : nat -> string -> Z -> list Match + exn;
  http_post : nat -> string -> JSON -> Response;
  task_parameters : string -> option (list (string * JSON))
}.

(** The state the services act on: the rows of the record store, the Redis
    keys with their value and expiry time, the log of external calls, the
    clock and the number of identifiers drawn so far. *)
Record St : Type := {
  tasks : list Task.t;
  batch_jobs : list BatchJob.t;
  webhooks : list Webhook.t;
  redis : list (string * (JSON * Z));
  log : list Event;
  clock : Z;
  issued : nat
}.

Definition empty_store : St :=
  {| tasks := []; batch_jobs := []; webhooks := []; redis := [];
     log := []; clock := 0; issued := 0 |}.

Definition with_tasks (f : list Task.t -> list Task.t) (s : St) : St :=
  {| tasks := f (tasks s); batch_jobs := batch_jobs s; webhooks := webhooks s;
     redis := redis s; log := log s; clock := clock s; issued := issued s |}.

Definition with_batch_jobs (f : list BatchJob.t -> list BatchJob.t) (s : St)
  : St :=
  {| tasks := tasks s; batch_jobs := f (batch_jobs s); webhooks := webhooks s;
     redis := redis s; log := log s; clock := clock s; issued := issued s |}.

Definition with_webhooks (f : list Webhook.t -> list Webhook.t) (s : St)
  : St :=
  {| tasks := tasks s; batch_jobs := batch_jobs s; webhooks := f (webhooks s);
     redis := redis s; log := log s; clock := clock s; issued := issued s |}.

Definition with_redis
  (f : list (string * (JSON * Z)) -> list (string * (JSON * Z))) (s : St)
  : St :=
  {| tasks := tasks s; batch_jobs := batch_jobs s; webhooks := webhooks s;
     redis := f (redis s); log := log s; clock := clock s;
     issued := issued s |}.

Definition with_log (f : list Event -> list Event) (s : St) : St :=
  {| tasks := tasks s; batch_jobs := batch_jobs s; webhooks := webhooks s;
     redis := redis s; log := f (log s); clock := clock s;
     issued := issued s |}.

Definition with_issued (f : nat -> nat) (s : St) : St :=
  {| tasks := tasks s; batch_jobs := batch_jobs s; webhooks := webhooks s;
     redis := redis s; log := log s; clock := clock s;
     issued := f (issued s) |}.


(** ** The monad of service code *)

Inductive outcome (A : Type) : Type :=
| Return (a : A)
| Raise (e : exn).

Arguments Return {A} a.
Arguments Raise {A} e.

Definition M (A : Type) : Type := St -> outcome A * St.

Definition ret {A : Type} (a : A) : M A := fun s => (Return a, s).

Definition raise {A : Type} (e : exn) : M A := fun s => (Raise e, s).

Definition bind {A B : Type} (m : M A) (k : A -> M B) : M B :=
  fun s =>
    match m s with
    | (Return a, s') => k a s'
    | (Raise e, s') => (Raise e, s')
    end.

(** [try: m except Exception as e: h e]. *)
Definition try_except {A : Type} (m : M A) (h : exn -> M A) : M A :=
  fun s =>
    match m s with
    | (Return a, s') => (Return a, s')
    | (Raise e, s') => h e s'
    end.

Definition gets {A : Type} (f : St -> A) : M A := fun s => (Return (f s), s).

Definition modify (f : St -> St) : M unit := fun s => (Return tt, f s).

Declare Scope monad_scope.
Delimit Scope monad_scope with monad.
Notation "x <- m ;; k" := (bind m (fun x => k))
  (at level 61, m at next level, right associativity) : monad_scope.
Notation "m ;;; k" := (bind m (fun _ => k))
  (at level 61, right associativity) : monad_scope.
Local Open Scope monad_scope.

(** An external call: record it and return its position in the log. *)
Definition emit (e : Event) : M nat :=
  fun s => (Return (length (log s)), with_log (fun l => (l ++ [e])%list) s).

(** [datetime.utcnow()]. *)
Definition utcnow : M Z := gets clock.


(** The final state and the result of a run. *)
Definition exec {A : Type} (m : M A) (s : St) : St := snd (m s).
Definition eval {A : Type} (m : M A) (s : St) : outcome A := fst (m s).

(** ** Row access *)

Definition find_task (tid : string) (s : St) : option Task.t :=
  find (fun x => (Task.id x =? tid)%string) (tasks s).

Definition find_batch_job (jid : string) (s : St) : option BatchJob.t :=
  find (fun x => (BatchJob.id x =? jid)%string) (batch_jobs s).

Definition find_webhook (wid : string) (s : St) : option Webhook.t :=
  find (fun x => (Webhook.id x =? wid)%string) (webhooks s).

Definition update_task (tid : string) (f : Task.t -> Task.t) : M unit :=
  modify (with_tasks
            (map (fun x => if (Task.id x =? tid)%string then f x else x))).

Definition update_batch_job (jid : string) (f : BatchJob.t -> BatchJob.t)
  : M unit :=
  modify (with_batch_jobs
            (map (fun x => if (BatchJob.id x =? jid)%string then f x else x))).

Definition update_webhook (wid : string) (f : Webhook.t -> Webhook.t)
  : M unit :=
  modify (with_webhooks
            (map (fun x => if (Webhook.id x =? wid)%string then f x else x))).

(** [generate_uuid()]. *)
Definition generate_uuid (w : World) : M string :=
  fun s => (Return (uuid4 w (issued s)), with_issued S s).

(** ** app/services/cache_service.py *)

(** What the services hand to the cache: decoded JSON data or a row object
    of the record store. *)
Inductive PyValue : Type :=
| OfJSON (j : JSON)
| OfTask (t : Task.t).

(** [json.dumps(value)]: a row object is not JSON serializable.  The text
    written to Redis is identified with the value it decodes to. *)
Definition json_dumps (v : PyValue) : JSON + exn :=
  match v with
  | OfJSON j => inl j
  | OfTask _ => inr (TypeError "Object of type Task is not JSON serializable")
  end.

Module CacheService.

(** [redis_client.get(key)]: an expired key is gone. *)
Definition redis_get (key : string) (s : St) : option JSON :=
  match find (fun e => (fst e =? key)%string) (redis s) with
  | Some (_, (v, expiry)) => if clock s <? expiry then Some v else None
  | None => None
  end.

(** [redis_client.setex(key, ttl, value)]; Redis refuses a TTL that is not
    positive. *)
Definition redis_setex (key : string) (ttl : Z) (v : JSON) : M bool :=
  if ttl <=? 0 then raise (OtherException "invalid expire time in setex")
  else
    now <- utcnow;;
    modify (with_redis (fun l =>
      (key, (v, now + ttl))
        :: filter (fun e => negb (fst e =? key)%string) l));;;
    ret true.

Definition get (key : string) : M (option JSON) :=
  gets (redis_get key).

Definition set (w : World) (key : string) (value : PyValue) (ttl : option Z)
  : M bool :=
  try_except
    (match json_dumps value with
     | inr e => raise e
     | inl serialized =>
         let ttl' := match ttl with
                     | Some z => if z =? 0 then CACHE_TTL (settings w) else z
                     | None => CACHE_TTL (settings w)
                     end in
         redis_setex key ttl' serialized
     end)
    (fun _ => ret false).

Definition delete (key : string) : M bool :=
  present <- gets (fun s => match redis_get key s with
                            | Some _ => true
                            | None => false
                            end);;
  modify (with_redis (filter (fun e => negb (fst e =? key)%string)));;;
  ret present.


End CacheService.

(** ** app/services/rag_service.py *)

Definition newline : string := String (ascii_of_nat 10) EmptyString.

(** [len(x)] and the integer value of a Python object read from JSON. *)
Definition py_len (j : JSON) : Z + exn :=
  match j with
  | JStr s => inl (Z.of_nat (String.length s))
  | JList l => inl (Z.of_nat (List.length l))
  | JDict d => inl (Z.of_nat (List.length d))
  | _ => inr (TypeError "object has no len()")
  end.

Definition py_int (j : JSON) : Z + exn :=
  match j with
  | JNum z => inl z
  | JBool b => inl (if b then 1 else 0)
  | _ => inr (TypeError "'>' not supported between instances")
  end.

(** ["\n".join(context)]. *)
Fixpoint join_lines (context : list JSON) : string + exn :=
  match context with
  | [] => inl ""
  | JStr s :: rest =>
      match join_lines rest with
      | inl r => inl (match rest with [] => s | _ => s ++ newline ++ r end)
      | inr e => inr e
      end
  | _ :: _ => inr (TypeError "sequence item: expected str instance")
  end.

Module RAGService.

Definition search_similar (w : World) (query : string) (top_k : option Z)
  : M (list Match) :=
  let k := match top_k with
           | Some z => if z =? 0 then RAG_TOP_K (settings w) else z
           | None => RAG_TOP_K (settings w)
           end in
  i <- emit (EvSearch query k);;
  match index_query w i query k with
  | inr e => raise e
  | inl found =>
      ret (filter
             (fun m => Qle_bool (RAG_SCORE_THRESHOLD (settings w))
                                (match_score m))
             found)
  end.

(** The loop of lines 120-125: [context] and [current_length] are the
    accumulators, the result is the final [context] list. *)
Fixpoint combine (matches : list Match) (max_length : JSON)
  (context : list JSON) (current_length : Z) : list JSON + exn :=
  match matches with
  | [] => inl context
  | m :: rest =>
      match dict_get "text" (match_metadata m) with
      | None => inr (KeyError "text")
      | Some text =>
          match py_len text, py_int max_length with
          | inr e, _ => inr e
          | _, inr e => inr e
          | inl n, inl limit =>
              if current_length + n >? limit then inl context
              else combine rest max_length (context ++ [text])%list
                           (current_length + n)
          end
      end
  end.

Definition get_relevant_context (w : World) (query : string)
  (max_length : JSON) : M (option string) :=
  try_except
    (matches <- search_similar w query None;;
     match matches with
     | [] => ret None
     | _ =>
         match combine matches max_length [] 0 with
         | inr e => raise e
         | inl context =>
             match join_lines context with
             | inr e => raise e
             | inl joined => ret (Some joined)
             end
         end
     end)
    (fun _ => ret None).

End RAGService.

(** ** app/services/ultrasafe_client.py *)

Module UltraSafeClient.

(** The retry loop of [_make_request]; [attempts] is what is left of
    [range(self.max_retries)].  Falling out of the loop returns [None]. *)
Fixpoint request_loop (w : World) (endpoint : string)
  (data : list (string * JSON)) (attempts : list nat) : M JSON :=
  match attempts with
  | [] => ret JNull
  | attempt :: rest =>
      i <- emit (EvApiRequest endpoint data);;
      match api_response w i endpoint data with
      | Responded _ body => ret body
      | Failed e =>
          if (attempt =? ULTRASAFE_MAX_RETRIES (settings w) - 1)%nat
          then raise e
          else request_loop w endpoint data rest
      end
  end.

Definition _make_request (w : World) (endpoint : string)
  (data : list (string * JSON)) : M JSON :=
  request_loop w endpoint data (seq 0 (ULTRASAFE_MAX_RETRIES (settings w))).

(** [if context: data["context"] = context]. *)
Definition with_context (context : option string)
  (data : list (string * JSON)) : list (string * JSON) :=
  match context with
  | Some c => if (c =? "")%string then data
              else dict_set "context" (JStr c) data
  | None => data
  end.

(** The four operations of the gateway; each records its invocation. *)
Definition invoke (w : World) (endpoint : string)
  (data : list (string * JSON)) : M JSON :=
  emit (EvGateway endpoint data);;; _make_request w endpoint data.

Definition classify_text (w : World) (text : string) (categories : JSON)
  (context : option string) : M JSON :=
  invoke w "classify"
    (with_context context [("text", JStr text); ("categories", categories)]).

Definition extract_entities (w : World) (text : string) (entity_types : JSON)
  (context : option string) : M JSON :=
  invoke w "extract-entities"
    (with_context context
       [("text", JStr text); ("entity_types", entity_types)]).

Definition summarize_text (w : World) (text : string) (max_length : JSON)
  (context : option string) : M JSON :=
  invoke w "summarize"
    (with_context context [("text", JStr text); ("max_length", max_length)]).

Definition analyze_sentiment (w : World) (text : string)
  (context : option string) : M JSON :=
  invoke w "analyze-sentiment" (with_context context [("text", JStr text)]).

End UltraSafeClient.

(** ** app/services/webhook_service.py *)

Module WebhookService.

(** The attributes set by [__init__]. *)
Record t : Type := {
  max_retries : nat;
  retry_delay : Z;
  timeout : Z
}.

(** The singleton [webhook_service]. *)
Definition webhook_service : t :=
  {| max_retries := 3; retry_delay := 5; timeout := 10 |}.

Definition _generate_signature (w : World) (payload : JSON) (secret : string)
  : string :=
  hmac_sha256_hexdigest w secret (json_dumps_sorted w payload).

(** Line 96, [await asyncio.sleep(self.retry_delay)]: the module imports
    typing, httpx, logging, structlog, datetime, sqlalchemy.orm, the models
    and the settings; the name [asyncio] is bound nowhere, so evaluating it
    raises [NameError]. *)
Definition asyncio_sleep (delay : Z) : M unit :=
  raise (NameError "asyncio").

(** The loop of lines 41-96; [attempts] is what is left of
    [range(self.max_retries)]. *)
Fixpoint deliver (w : World) (self : t) (webhook_id url : string)
  (payload : JSON) (signature : string) (attempts : list nat) : M bool :=
  match attempts with
  | [] => ret false
  | attempt :: rest =>
      let continue : M bool :=
        (if (attempt <? max_retries self - 1)%nat
         then asyncio_sleep (retry_delay self) else ret tt);;;
        deliver w self webhook_id url payload signature rest in
      i <- emit (EvPost url payload webhook_id signature);;
      match http_post w i url payload with
      | Responded code _ =>
          now <- utcnow;;
          update_webhook webhook_id (Webhook.delivered now code);;;
          ret true
      | Failed (HTTPError code _) =>
          update_webhook webhook_id (Webhook.http_failed code);;;
          o <- gets (find_webhook webhook_id);;
          match o with
          | None => raise (AttributeError "webhook row is gone")
          | Some webhook =>
              if Webhook.failure_count webhook
                 >=? MAX_WEBHOOK_FAILURES (settings w)
              then update_webhook webhook_id Webhook.deactivate;;; ret false
              else continue
          end
      | Failed _ =>
          update_webhook webhook_id Webhook.other_failed;;;
          continue
      end
  end.

Definition send_notification (w : World) (self : t) (webhook_id : string)
  (payload : JSON) : M bool :=
  o <- gets (find_webhook webhook_id);;
  match o with
  | None => ret false
  | Some webhook =>
      if negb (Webhook.is_active webhook) then ret false
      else
        deliver w self webhook_id (Webhook.url webhook) payload
          (_generate_signature w payload (Webhook.secret webhook))
          (seq 0 (max_retries self))
  end.

Definition validate_url (w : World) (url : string) : bool :=
  match url_scheme w url with
  | Some scheme => (scheme =? "http")%string || (scheme =? "https")%string
  | None => false
  end.

Definition create_webhook (w : World) (url : string) (events : list string)
  (description : option string) : M Webhook.t :=
  if negb (validate_url w url) then raise (ValueError "Invalid webhook URL")
  else
    n <- gets issued;;
    wid <- generate_uuid w;;
    let webhook :=
      {| Webhook.id := wid; Webhook.url := url; Webhook.events := events;
         Webhook.description := description;
         Webhook.secret := token_urlsafe w n;
         Webhook.is_active := true; Webhook.failure_count := 0;
         Webhook.last_triggered := None; Webhook.last_status := None |} in
    modify (with_webhooks (fun l => (l ++ [webhook])%list));;;
    ret webhook.

End WebhookService.

(** ** app/services/task_service.py *)

(** What [create_task] returns: the row it created, or on a cache hit the
    decoded cache entry. *)
Inductive Submitted : Type :=
| Created (task : Task.t)
| Cached (cached_result : JSON).

(** One element of the [tasks] argument of [create_batch_job]. *)
Record TaskData : Type := {
  td_task_type : string;
  td_text : string;
  td_parameters : list (string * JSON)
}.

Module TaskService.

Definition webhook_service : WebhookService.t :=
  WebhookService.webhook_service.

Definition _generate_input_hash (w : World) (text : string) : string :=
  sha256_hexdigest w text.

(** [f"{task_type}:{input_hash}"]. *)
Definition cache_key (task_type input_hash : string) : string :=
  task_type ++ ":" ++ input_hash.

(** [task.parameters]. *)
Definition read_parameters (w : World) (task_id : string)
  : M (list (string * JSON)) :=
  match task_parameters w task_id with
  | Some parameters => ret parameters
  | None => raise (AttributeError "'Task' object has no attribute 'parameters'")
  end.

(** [parameters.get(key, default)] and [parameters[key]]. *)
Definition get_default (key : string) (default : JSON)
  (parameters : list (string * JSON)) : JSON :=
  match dict_get key parameters with Some v => v | None => default end.

Definition subscript (key : string) (parameters : list (string * JSON))
  : M JSON :=
  match dict_get key parameters with
  | Some v => ret v
  | None => raise (KeyError key)
  end.

Definition _handle_classification (w : World) (text : string)
  (parameters : list (string * JSON)) (context : option string) : M JSON :=
  categories <- subscript "categories" parameters;;
  UltraSafeClient.classify_text w text categories context.

Definition _handle_entity_extraction (w : World) (text : string)
  (parameters : list (string * JSON)) (context : option string) : M JSON :=
  entity_types <- subscript "entity_types" parameters;;
  UltraSafeClient.extract_entities w text entity_types context.

Definition _handle_summarization (w : World) (text : string)
  (parameters : list (string * JSON)) (context : option string) : M JSON :=
  max_length <- subscript "max_length" parameters;;
  UltraSafeClient.summarize_text w text max_length context.

Definition _handle_sentiment_analysis (w : World) (text : string)
  (parameters : list (string * JSON)) (context : option string) : M JSON :=
  UltraSafeClient.analyze_sentiment w text context.

(** [self.task_handlers.get(task_type)]. *)
Definition task_handlers (task_type : string)
  : option (World -> string -> list (string * JSON) -> option string
            -> M JSON) :=
  if (task_type =? "classification")%string
  then Some _handle_classification
  else if (task_type =? "entity_extraction")%string
  then Some _handle_entity_extraction
  else if (task_type =? "summarization")%string
  then Some _handle_summarization
  else if (task_type =? "sentiment_analysis")%string
  then Some _handle_sentiment_analysis
  else None.

(** [task.batch_job and task.batch_job.webhook_url], read from the rows:
    the target of the notification when the conjunction is truthy. *)
Definition task_webhook (task_id : string) (s : St) : option string :=
  match find_task task_id s with
  | Some task =>
      match Task.batch_job_id task with
      | Some jid =>
          match find_batch_job jid s with
          | Some job =>
              match BatchJob.webhook_url job with
              | Some u => if (u =? "")%string then None else Some u
              | None => None
              end
          | None => None
          end
      | None => None
      end
  | None => None
  end.

Definition job_webhook (job_id : string) (s : St) : option string :=
  match find_batch_job job_id s with
  | Some job =>
      match BatchJob.webhook_url job with
      | Some u => if (u =? "")%string then None else Some u
      | None => None
      end
  | None => None
  end.

(** [await webhook_service.send_notification(...)] under its guard. *)
Definition notify (w : World) (target : option string) (payload : JSON)
  : M unit :=
  match target with
  | Some webhook_id =>
      WebhookService.send_notification w webhook_service webhook_id payload;;;
      ret tt
  | None => ret tt
  end.

(** Lines 72-116: the body of the [try]. *)
Definition process_body (w : World) (task : Task.t) : M unit :=
  let task_id := Task.id task in
  update_task task_id (Task.set_status PROCESSING);;;
  parameters <- read_parameters w task_id;;
  context <-
    (if truthy (get_default "use_rag" (JBool false) parameters)
     then RAGService.get_relevant_context w (Task.input_text task)
            (get_default "context_length" (JNum 1000) parameters)
     else ret None);;
  match task_handlers (Task.task_type task) with
  | None =>
      raise (ValueError ("Unknown task type: " ++ Task.task_type task))
  | Some handler =>
      result <- handler w (Task.input_text task) parameters context;;
      now <- utcnow;;
      update_task task_id
        (fun x => Task.set_completed_at now
                    (Task.set_result (of_py result)
                       (Task.set_status COMPLETED x)));;;
      (if CACHE_ENABLED (settings w)
       then
         row <- gets (find_task task_id);;
         match row with
         | Some x =>
             CacheService.set w
               (cache_key (Task.task_type task) (Task.input_hash task))
               (OfTask x) (Some (CACHE_TTL (settings w)));;;
             ret tt
         | None => ret tt
         end
       else ret tt);;;
      target <- gets (task_webhook task_id);;
      notify w target
        (JDict [("event", JStr "task.completed"); ("task_id", JStr task_id);
                ("result", result)])
  end.

(** Lines 118-134: the [except Exception as e] handler. *)
Definition process_failed (w : World) (task : Task.t) (e : exn) : M unit :=
  let task_id := Task.id task in
  update_task task_id
    (fun x => Task.set_error (Some (str e)) (Task.set_status FAILED x));;;
  target <- gets (task_webhook task_id);;
  notify w target
    (JDict [("event", JStr "task.failed"); ("task_id", JStr task_id);
            ("error", JStr (str e))]).

Definition _process_task (w : World) (task_id : string) : M unit :=
  found <- gets (find_task task_id);;
  match found with
  | None => ret tt
  | Some task => try_except (process_body w task) (process_failed w task)
  end.

(** Lines 48-62 of [create_task]: the new row, its processing, and the row
    object handed back. *)
Definition submit_new (w : World) (task_type input_text input_hash : string)
  : M Submitted :=
  tid <- generate_uuid w;;
  now <- utcnow;;
  let task :=
    {| Task.id := tid; Task.task_type := task_type;
       Task.status := PENDING; Task.input_text := input_text;
       Task.input_hash := input_hash; Task.result := None;
       Task.error := None; Task.created_at := now;
       Task.completed_at := None; Task.processing_time := None;
       Task.batch_job_id := None |} in
  modify (with_tasks (fun l => (l ++ [task])%list));;;
  _process_task w tid;;;
  row <- gets (find_task tid);;
  ret (Created (match row with Some x => x | None => task end)).

Definition create_task (w : World) (task_type input_text : string)
  (parameters : list (string * JSON)) : M Submitted :=
  let input_hash := _generate_input_hash w input_text in
  let key := cache_key task_type input_hash in
  cached_result <-
    (if CACHE_ENABLED (settings w) then CacheService.get key else ret None);;
  match cached_result with
  | Some j =>
      if truthy j then ret (Cached j)
      else submit_new w task_type input_text input_hash
  | None => submit_new w task_type input_text input_hash
  end.

Definition get_task (task_id : string) : M (option Task.t) :=
  gets (find_task task_id).

Definition get_batch_job (job_id : string) : M (option BatchJob.t) :=
  gets (find_batch_job job_id).

(** Lines 242-250: one turn of the loop over the tasks of the job;
    [results] is the dict built so far. *)
Definition batch_iter (w : World) (job_id : string) (task : Task.t)
  (results : list (string * JSON)) : M (list (string * JSON)) :=
  _process_task w (Task.id task);;;
  row <- get_task (Task.id task);;
  match row with
  | None => raise (AttributeError "'NoneType' object has no attribute 'status'")
  | Some task' =>
      if status_eqb (Task.status task') COMPLETED
      then
        update_batch_job job_id BatchJob.incr_completed;;;
        ret (dict_set (Task.id task') (to_py (Task.result task')) results)
      else
        update_batch_job job_id BatchJob.incr_failed;;;
        ret (dict_set (Task.id task')
               (JDict [("error", py_str (Task.error task'))]) results)
  end.

Fixpoint batch_loop (w : World) (job_id : string) (todo : list Task.t)
  (results : list (string * JSON)) : M (list (string * JSON)) :=
  match todo with
  | [] => ret results
  | task :: rest =>
      results' <- batch_iter w job_id task results;;
      batch_loop w job_id rest results'
  end.

(** [db.query(Task).filter(Task.batch_job_id == job_id).all()]. *)
Definition tasks_of_job (job_id : string) (s : St) : list Task.t :=
  filter (fun x => match Task.batch_job_id x with
                   | Some j => (j =? job_id)%string
                   | None => false
                   end) (tasks s).

(** Lines 233-269: the body of the [try]. *)
Definition batch_body (w : World) (job_id : string) : M unit :=
  update_batch_job job_id (BatchJob.set_status PROCESSING);;;
  todo <- gets (tasks_of_job job_id);;
  results <- batch_loop w job_id todo [];;
  now <- utcnow;;
  update_batch_job job_id (BatchJob.complete (JDict results) now);;;
  target <- gets (job_webhook job_id);;
  notify w target
    (JDict [("event", JStr "batch_job.completed"); ("job_id", JStr job_id);
            ("results", JDict results)]).

(** Lines 271-287: the [except Exception as e] handler. *)
Definition batch_failed (w : World) (job_id : string) (e : exn) : M unit :=
  update_batch_job job_id (BatchJob.fail (str e));;;
  target <- gets (job_webhook job_id);;
  notify w target
    (JDict [("event", JStr "batch_job.failed"); ("job_id", JStr job_id);
            ("error", JStr (str e))]).

Definition _process_batch_job (w : World) (job_id : string) : M unit :=
  found <- gets (find_batch_job job_id);;
  match found with
  | None => ret tt
  | Some _ => try_except (batch_body w job_id) (batch_failed w job_id)
  end.

(** Lines 208-216: one row per element of [tasks]. *)
Fixpoint add_tasks (w : World) (job_id : string) (tasks : list TaskData)
  : M unit :=
  match tasks with
  | [] => ret tt
  | task_data :: rest =>
      tid <- generate_uuid w;;
      now <- utcnow;;
      let task :=
        {| Task.id := tid; Task.task_type := td_task_type task_data;
           Task.status := PENDING; Task.input_text := td_text task_data;
           Task.input_hash := _generate_input_hash w (td_text task_data);
           Task.result := None; Task.error := None; Task.created_at := now;
           Task.completed_at := None; Task.processing_time := None;
           Task.batch_job_id := Some job_id |} in
      modify (with_tasks (fun l => (l ++ [task])%list));;;
      add_tasks w job_id rest
  end.

(** Lines 198-218: the rows of a new job and of its tasks. *)
Definition create_batch_rows (w : World) (tasks : list TaskData)
  (webhook_url : option string) : M BatchJob.t :=
  jid <- generate_uuid w;;
  now <- utcnow;;
  let batch_job :=
    {| BatchJob.id := jid; BatchJob.status := PENDING;
       BatchJob.total_tasks := Z.of_nat (List.length tasks);
       BatchJob.completed_tasks := 0; BatchJob.failed_tasks := 0;
       BatchJob.results := None; BatchJob.error := None;
       BatchJob.created_at := now; BatchJob.completed_at := None;
       BatchJob.processing_time := None;
       BatchJob.webhook_url := webhook_url |} in
  modify (with_batch_jobs (fun l => (l ++ [batch_job])%list));;;
  add_tasks w jid tasks;;;
  ret batch_job.

Definition create_batch_job (w : World) (tasks : list TaskData)
  (webhook_url : option string) : M BatchJob.t :=
  batch_job <- create_batch_rows w tasks webhook_url;;
  _process_batch_job w (BatchJob.id batch_job);;;
  row <- get_batch_job (BatchJob.id batch_job);;
  ret (match row with Some x => x | None => batch_job end).

(** Lines 308-310: every pending task of the job. *)
Definition cancel_pending (job_id : string) (x : Task.t) : Task.t :=
  match Task.batch_job_id x with
  | Some j =>
      if (j =? job_id)%string && status_eqb (Task.status x) PENDING
      then Task.set_status CANCELLED x else x
  | None => x
  end.

Definition cancel_batch_job (job_id : string) : M BatchJob.t :=
  found <- get_batch_job job_id;;
  match found with
  | None => raise (ValueError "Batch job not found")
  | Some _ =>
      update_batch_job job_id (BatchJob.set_status CANCELLED);;;
      modify (with_tasks (map (cancel_pending job_id)));;;
      row <- get_batch_job job_id;;
      match row with
      | Some x => ret x
      | None => raise (ValueError "Batch job not found")
      end
  end.

End TaskService.

(** ** Operations of the system *)






(** ** What the properties speak about *)


Definition is_post (e : Event) : bool :=
  match e with EvPost _ _ _ _ => true | _ => false end.



(** What [create_task] computes from its three arguments for caching and
    deduplication (lines 39-40 of task_service.py). *)
Definition submit_fingerprint (w : World) (task_type input_text : string)
  (parameters : list (string * JSON)) : string :=
  TaskService._generate_input_hash w input_text.

Definition submit_cache_key (w : World) (task_type input_text : string)
  (parameters : list (string * JSON)) : string :=
  TaskService.cache_key task_type
    (submit_fingerprint w task_type input_text parameters).

Definition collision_free (w : World) : Prop :=
  forall a b, sha256_hexdigest w a = sha256_hexdigest w b -> a = b.


(** C8 as the specification words it: inputs that differ in kind, text or
    parameters have distinct fingerprints. *)
Definition fingerprint_separates (w : World) : Prop :=
  forall k1 t1 p1 k2 t2 p2,
    (k1, t1, p1) <> (k2, t2, p2) ->
    submit_fingerprint w k1 t1 p1 <> submit_fingerprint w k2 t2 p2.

(** The text of a match, as line 121 reads it. *)
Definition match_text (m : Match) : option JSON :=
  dict_get "text" (match_metadata m).

Definition total_length (fragments : list string) : Z :=
  fold_right (fun f n => Z.of_nat (String.length f) + n) 0 fragments.

(** The length line 122 adds for a text. *)
Definition text_length (text : JSON) : Z :=
  match py_len text with inl n => n | inr _ => 0 end.

Definition texts_length (texts : list JSON) : Z :=
  fold_right (fun text n => text_length text + n) 0 texts.

(** C9 as the specification words it: the returned context is never longer
    than [max_length]. *)
Definition context_within_max_length (w : World) : Prop :=
  forall query max_length s context,
    eval (RAGService.get_relevant_context w query (JNum max_length)) s
    = Return (Some context) ->
    Z.of_nat (String.length context) <= max_length.

(** The invariant of a webhook row. *)
Definition suspended_at_threshold (w : World) (x : Webhook.t) : Prop :=
  Webhook.failure_count x >= MAX_WEBHOOK_FAILURES (settings w) ->
  Webhook.is_active x = false.

(** The invariants of a task row. *)
Definition result_xor_error (x : Task.t) : Prop :=
  ~ (Task.result x <> None /\ Task.error x <> None).

Definition unfinished_is_blank (x : Task.t) : Prop :=
  terminal (Task.status x) = false ->
  Task.result x = None /\ Task.error x = None.

(** A row as [create_task] inserts it, up to its status: no result, no
    error, no job. *)
Definition blank (x : Task.t) : Prop :=
  Task.result x = None /\ Task.error x = None /\
  Task.batch_job_id x = None.

(** A row as processing is meant to leave it. *)
Definition finished (x : Task.t) : Prop :=
  (Task.status x = COMPLETED /\ Task.error x = None) \/
  (Task.status x = FAILED /\ Task.result x = None /\ Task.error x <> None).

(** Every row of task [tid] satisfies [P]. *)
Definition rows_of (tid : string) (P : Task.t -> Prop) (s : St) : Prop :=
  forall x, In x (tasks s) -> Task.id x = tid -> P x.

(** The task rows are the same. *)
Definition tasks_same (s s' : St) : Prop := tasks s' = tasks s.


(** The store with the [events] column of every webhook replaced. *)
Definition resubscribe (g : string -> list string) (s : St) : St :=
  with_webhooks
    (map (fun x => Webhook.set_events (g (Webhook.id x)) x)) s.

(** Lines 95-96 and the next turn of the delivery loop: what follows a
    failed attempt that did not return. *)
Definition after_failed_attempt (w : World) (self : WebhookService.t)
  (webhook_id url : string) (payload : JSON) (signature : string)
  (attempt : nat) (rest : list nat) : M bool :=
  (if (attempt <? WebhookService.max_retries self - 1)%nat
   then WebhookService.asyncio_sleep (WebhookService.retry_delay self)
   else ret tt);;;
  WebhookService.deliver w self webhook_id url payload signature rest.

(** ** Frames: what a computation leaves alone *)

(** Every final state of [m] is related to its initial state. *)
Definition stable {A : Type} (R : St -> St -> Prop) (m : M A) : Prop :=
  forall s, R s (snd (m s)).

(** A relation between an initial and a later store that composes and that
    external calls and webhook bookkeeping respect. *)
Class Frame (R : St -> St -> Prop) : Prop := {
  frame_refl : forall s, R s s;
  frame_trans : forall s1 s2 s3, R s1 s2 -> R s2 s3 -> R s1 s3;
  frame_emit : forall e s, R s (snd (emit e s));
  frame_webhooks : forall f s, R s (with_webhooks f s)
}.

(** The log is only ever appended to. *)
Definition log_grows (s s' : St) : Prop :=
  exists rest, log s' = (log s ++ rest)%list.

(** The row a lookup of task [tid] finds is the same. *)
Definition finds_same (tid : string) (s s' : St) : Prop :=
  find_task tid s' = find_task tid s.

(** The cache holds what it held. *)
Definition cache_same (s s' : St) : Prop := redis s' = redis s.

(** Processing the task [t] writes the rows of that id and no other, keeps
    every key, and leaves jobs, cache and identifier count alone. *)
Definition task_frame (t : string) (s s' : St) : Prop :=
  batch_jobs s' = batch_jobs s /\
  issued s' = issued s /\
  redis s' = redis s /\
  Forall2 (fun x x' => Task.id x' = Task.id x /\
                       Task.batch_job_id x' = Task.batch_job_id x /\
                       (Task.id x <> t -> x' = x))
          (tasks s) (tasks s').

(** Processing the job [j] writes, besides its tasks, the rows of that job
    id, and keeps their id and [total_tasks]. *)
Definition job_frame (j : string) (s s' : St) : Prop :=
  issued s' = issued s /\
  redis s' = redis s /\
  Forall2 (fun x x' => Task.id x' = Task.id x /\
                       Task.batch_job_id x' = Task.batch_job_id x)
          (tasks s) (tasks s') /\
  Forall2 (fun x x' => BatchJob.id x' = BatchJob.id x /\
                       BatchJob.total_tasks x' = BatchJob.total_tasks x /\
                       (BatchJob.id x <> j -> x' = x))
          (batch_jobs s) (batch_jobs s').



(** The batch job rows are the same. *)
Definition jobs_same (s s' : St) : Prop := batch_jobs s' = batch_jobs s.



(** A later store with the same batch job rows, in which every reference
    of a task to a job was there before. *)
Definition extends (s s' : St) : Prop :=
  (issued s <= issued s')%nat /\
  batch_jobs s' = batch_jobs s /\
  forall x' j, In x' (tasks s') -> Task.batch_job_id x' = Some j ->
    exists x, In x (tasks s) /\ Task.batch_job_id x = Some j.


(** ** Scenarios *)

Module Scenario.

(** Identifiers "id-0", "id-1", ... *)
Definition uuid (n : nat) : string :=
  "id-" ++ NilEmpty.string_of_uint (Nat.to_uint n).

Definition positive : Response :=
  Responded 200 (JDict [("sentiment", JStr "positive")]).

Definition server_error : Response :=
  Failed (HTTPError (Some 500) "Server error '500 Internal Server Error'").

Definition invalid_url : Response :=
  Failed (OtherException "Request URL is missing a protocol").

(** A world with default settings in which every row's parameters read as
    [parameters], the similarity index answers [found], every subscriber
    endpoint answers [post] and the inference API answers by the text. *)
Definition world (parameters : option (list (string * JSON)))
  (found : list Match) (post : Response) (api : string -> Response)
  : World :=
  {| settings := default_settings;
     sha256_hexdigest := fun text => text;
     hmac_sha256_hexdigest := fun key message => key ++ "." ++ message;
     json_dumps_sorted := fun _ => "{}";
     uuid4 := uuid;
     token_urlsafe := fun _ => "s3cr3t";
     url_scheme := fun _ => Some "https";
     api_response := fun _ _ data =>
       match dict_get "text" data with
       | Some (JStr text) => api text
       | _ => Failed (OtherException "no text")
       end;
     index_query := fun _ _ _ => inl found;
     http_post := fun _ _ _ => post;
     task_parameters := fun _ => parameters |}.

(** The inference API fails on the text "bad" and succeeds otherwise. *)
Definition api (text : string) : Response :=
  if (text =? "bad")%string then server_error else positive.

(** Subscriber endpoints are down. *)
Definition endpoint_down : World := world (Some []) [] server_error api.

(** Subscriber endpoints cannot be reached for a reason outside the
    [httpx.HTTPError] hierarchy. *)
Definition endpoint_invalid : World := world (Some []) [] invalid_url api.

(** A registered, active webhook with [n] failures so far. *)
Definition hook (n : Z) : Webhook.t :=
  {| Webhook.id := "wh"; Webhook.url := "https://subscriber.example/hook";
     Webhook.events := ["batch_job.completed"]; Webhook.description := None;
     Webhook.secret := "s3cr3t"; Webhook.is_active := true;
     Webhook.failure_count := n; Webhook.last_triggered := None;
     Webhook.last_status := None |}.

Definition store_with_hook (n : Z) : St :=
  with_webhooks (fun _ => [hook n]) empty_store.

Definition sentiment (text : string) : TaskData :=
  {| td_task_type := "sentiment_analysis"; td_text := text;
     td_parameters := [] |}.

Definition fragment (text : string) : Match :=
  {| match_id := "doc_1"; match_score := 9 # 10;
     match_metadata := [("text", JStr text)] |}.

(** The similarity index returns the fragments "ab" and "cd". *)
Definition two_fragments : World :=
  world (Some []) [fragment "ab"; fragment "cd"] server_error api.





(** A batch of three tasks, one of which the inference API fails on,
    without and with a notification target. *)
Definition three_tasks : list TaskData :=
  [sentiment "good"; sentiment "bad"; sentiment "fine"].

Definition silent_batch : M BatchJob.t :=
  TaskService.create_batch_job endpoint_down three_tasks None.


(** A batch of two tasks is cancelled while it is being processed: its
    rows are created, the job is set to processing and the loop has done its
    first turn when [cancel_batch_job] is served; the second task, still
    pending, is cancelled. *)
Definition two_rows : St :=
  exec (TaskService.create_batch_rows endpoint_down
          [sentiment "good"; sentiment "fine"] None) empty_store.

Definition first_turn_done : St :=
  match find_task "id-1" two_rows with
  | Some task =>
      exec (TaskService.batch_iter endpoint_down "id-0" task [])
        (exec (update_batch_job "id-0" (BatchJob.set_status PROCESSING))
           two_rows)
  | None => two_rows
  end.


End Scenario.

(** ** app/api/endpoints/batch.py *)

(** The string a status is stored as (app/schemas.py). *)
Definition status_value (s : TaskStatus) : string :=
  match s with
  | PENDING => "pending"
  | PROCESSING => "processing"
  | COMPLETED => "completed"
  | FAILED => "failed"
  | CANCELLED => "cancelled"
  end.

(** What an endpoint answers: its return value, or the [HTTPException] it
    raises.  An exception of the service it calls is not caught. *)
Inductive Reply (A : Type) : Type :=
| Ok (a : A)
| HTTPException (status_code : Z) (detail : string).

Arguments Ok {A} a.
Arguments HTTPException {A} status_code detail.

(** [f"{x}"] for a text column. *)
Definition format_text (o : option string) : string :=
  match o with Some t => t | None => "None" end.

Module BatchEndpoints.

Definition get_batch_job_status (job_id : string) : M (Reply BatchJob.t) :=
  batch_job <- TaskService.get_batch_job job_id;;
  match batch_job with
  | None => ret (HTTPException 404 "Batch job not found")
  | Some job => ret (Ok job)
  end.

Definition get_batch_job_results (job_id : string) : M (Reply BatchJob.t) :=
  batch_job <- TaskService.get_batch_job job_id;;
  match batch_job with
  | None => ret (HTTPException 404 "Batch job not found")
  | Some job =>
      if status_eqb (BatchJob.status job) PROCESSING
      then ret (HTTPException 400 "Batch job is still processing")
      else if status_eqb (BatchJob.status job) FAILED
      then ret (HTTPException 400
                  ("Batch job failed: " ++ format_text (BatchJob.error job)))
      else ret (Ok job)
  end.

Definition cancel_batch_job (job_id : string) : M (Reply BatchJob.t) :=
  batch_job <- TaskService.get_batch_job job_id;;
  match batch_job with
  | None => ret (HTTPException 404 "Batch job not found")
  | Some job =>
      if terminal (BatchJob.status job)
      then ret (HTTPException 400
                  ("Cannot cancel batch job in "
                   ++ status_value (BatchJob.status job) ++ " status"))
      else
        cancelled <- TaskService.cancel_batch_job job_id;;
        ret (Ok cancelled)
  end.

End BatchEndpoints.

(** ** Vocabulary of the properties of cache, client and webhooks *)

(** [ttl or self.default_ttl] (line 52 of cache_service.py). *)
Definition effective_ttl (w : World) (ttl : option Z) : Z :=
  match ttl with
  | Some z => if z =? 0 then CACHE_TTL (settings w) else z
  | None => CACHE_TTL (settings w)
  end.

(** What [cache_service.get] finds in a store. *)
Definition cached (key : string) (s : St) : option JSON :=
  CacheService.redis_get key s.

(** The response stands for an exception of the request. *)
Definition failed (r : Response) : bool :=
  match r with
  | Failed _ => true
  | Responded _ _ => false
  end.

(** The first [k] requests to the inference API made from store [s] on
    fail. *)
Definition first_requests_fail (w : World) (endpoint : string)
  (data : list (string * JSON)) (s : St) (k : nat) : bool :=
  forallb (fun i => failed (api_response w (length (log s) + i) endpoint data))
    (seq 0 k).

(** [k] further requests on the log. *)
Definition requested (endpoint : string) (data : list (string * JSON))
  (k : nat) (s : St) : St :=
  with_log (fun l => (l ++ repeat (EvApiRequest endpoint data) k)%list) s.

(** The request [send_notification] posts for a webhook row. *)
Definition signed_post (w : World) (webhook : Webhook.t) (payload : JSON)
  : Event :=
  EvPost (Webhook.url webhook) payload (Webhook.id webhook)
    (WebhookService._generate_signature w payload (Webhook.secret webhook)).

(** What a notification to webhook [wid] leaves alone: tasks, jobs, cache,
    identifier count and clock; the log gains POST requests only; every
    webhook row keeps its id, URL and secret, and the rows of other
    webhooks are untouched. *)
Definition notification_footprint (wid : string) (s s' : St) : Prop :=
  tasks s' = tasks s /\
  batch_jobs s' = batch_jobs s /\
  redis s' = redis s /\
  issued s' = issued s /\
  clock s' = clock s /\
  (exists sent, log s' = (log s ++ sent)%list /\
                forallb is_post sent = true) /\
  Forall2 (fun x x' => Webhook.id x' = Webhook.id x /\
                       Webhook.url x' = Webhook.url x /\
                       Webhook.secret x' = Webhook.secret x /\
                       (Webhook.id x <> wid -> x' = x))
          (webhooks s) (webhooks s').




(** The store [cancel_batch_job] leaves for a job that exists. *)
Definition cancelled_store (j : string) (s : St) : St :=
  with_tasks (map (TaskService.cancel_pending j))
    (snd (update_batch_job j (BatchJob.set_status CANCELLED) s)).

(** A task of job [j] that has not been started. *)
Definition pending_in (j : string) (x : Task.t) : Prop :=
  Task.batch_job_id x = Some j /\ Task.status x = PENDING.

(** ** Batches without a notification target *)


(** What one turn of the batch loop for task [t] leaves alone: every task
    row keeps its id and its job, the rows of the other tasks are untouched,
    and every job row keeps its id and its notification target. *)
Definition turn_frame (t : string) (s s' : St) : Prop :=
  Forall2 (fun x x' => Task.id x' = Task.id x /\
                       Task.batch_job_id x' = Task.batch_job_id x /\
                       (Task.id x <> t -> x' = x))
          (tasks s) (tasks s') /\
  Forall2 (fun x x' => BatchJob.id x' = BatchJob.id x /\
                       BatchJob.webhook_url x' = BatchJob.webhook_url x)
          (batch_jobs s) (batch_jobs s').




(** ** Worlds and stores of the examples *)

Module Worlds.

(** A world in which the inference API answers the first [k] requests with
    a server error and every later one with a result. *)
Definition flaky (k : nat) : World :=
  let w := Scenario.endpoint_down in
  {| settings := settings w;
     sha256_hexdigest := sha256_hexdigest w;
     hmac_sha256_hexdigest := hmac_sha256_hexdigest w;
     json_dumps_sorted := json_dumps_sorted w;
     uuid4 := uuid4 w;
     token_urlsafe := token_urlsafe w;
     url_scheme := url_scheme w;
     api_response := fun i _ _ =>
       if (i <? k)%nat then Scenario.server_error else Scenario.positive;
     index_query := index_query w;
     http_post := http_post w;
     task_parameters := task_parameters w |}.

(** A world whose URL parser answers by [scheme]. *)
Definition schemes (scheme : string -> option string) : World :=
  let w := Scenario.endpoint_down in
  {| settings := settings w;
     sha256_hexdigest := sha256_hexdigest w;
     hmac_sha256_hexdigest := hmac_sha256_hexdigest w;
     json_dumps_sorted := json_dumps_sorted w;
     uuid4 := uuid4 w;
     token_urlsafe := token_urlsafe w;
     url_scheme := scheme;
     api_response := api_response w;
     index_query := index_query w;
     http_post := http_post w;
     task_parameters := task_parameters w |}.



(** The job row of [Scenario.first_turn_done]: one task counted, the batch
    still processing. *)
Definition job_after_first_turn : BatchJob.t :=
  {| BatchJob.id := "id-0"; BatchJob.status := PROCESSING;
     BatchJob.total_tasks := 2; BatchJob.completed_tasks := 1;
     BatchJob.failed_tasks := 0; BatchJob.results := None;
     BatchJob.error := None; BatchJob.created_at := 0;
     BatchJob.completed_at := None; BatchJob.processing_time := None;
     BatchJob.webhook_url := None |}.


End Worlds.

(** * Properties *)

(** ** Lists and rows *)

Lemma find_map_update {A : Type} (p : A -> bool) (f : A -> A) (l : list A)
  (x : A) :
  (forall y, p (f y) = p y) ->
  find p l = Some x ->
  find p (map (fun y => if p y then f y else y) l) = Some (f x).
Proof.
  intros Hp. induction l as [|y l IH]; simpl; [discriminate|].
  destruct (p y) eqn:E.
  - intros [= ->]. rewrite Hp, E. reflexivity.
  - rewrite E. exact IH.
Qed.

Lemma find_app_found {A : Type} (p : A -> bool) (l l' : list A) (x : A) :
  find p l = Some x -> find p (l ++ l')%list = Some x.
Proof.
  induction l as [|y l IH]; simpl; [discriminate|].
  destruct (p y); auto.
Qed.

Lemma Forall2_same {A : Type} (P : A -> A -> Prop) (l : list A) :
  (forall x, P x x) -> Forall2 P l l.
Proof. intros H. induction l; constructor; auto. Qed.

Lemma Forall2_compose {A : Type} (P : A -> A -> Prop) (l1 l2 l3 : list A) :
  (forall x y z, P x y -> P y z -> P x z) ->
  Forall2 P l1 l2 -> Forall2 P l2 l3 -> Forall2 P l1 l3.
Proof.
  intros HP H12. revert l3.
  induction H12 as [|x y l1 l2 Hxy _ IH]; intros l3 H23;
    inversion H23; subst; constructor; eauto.
Qed.

Lemma Forall2_map_right {A : Type} (P : A -> A -> Prop) (g : A -> A)
  (l : list A) :
  (forall x, P x (g x)) -> Forall2 P l (map g l).
Proof. intros H. induction l; simpl; constructor; auto. Qed.

Lemma Forall2_grow {A : Type} (P : A -> A -> Prop) (l l' : list A) :
  Forall2 P l l' -> forall Q : A -> A -> Prop,
  (forall x y, P x y -> Q x y) -> Forall2 Q l l'.
Proof. induction 1; intros Q HQ; constructor; auto. Qed.

Lemma string_eqb_false (a b : string) : a <> b -> (a =? b)%string = false.
Proof. intros H. apply String.eqb_neq. exact H. Qed.

(** ** Running service code *)

Lemma bind_run {A B : Type} (m : M A) (k : A -> M B) (s : St) :
  bind m k s
  = match m s with
    | (Return a, s1) => k a s1
    | (Raise e, s1) => (Raise e, s1)
    end.
Proof. reflexivity. Qed.

(** ** Frames *)

#[export] Instance task_frame_Frame (t : string) : Frame (task_frame t).
Proof.
  split.
  - intros s. repeat split. apply Forall2_same. auto.
  - intros s1 s2 s3 (J1 & I1 & C1 & T1) (J2 & I2 & C2 & T2).
    repeat split; try congruence.
    eapply Forall2_compose; [|exact T1|exact T2].
    intros x y z (Hi & Hb & Hk) (Hi' & Hb' & Hk').
    repeat split; try congruence.
    intros Hx. rewrite Hk', Hk; auto. congruence.
  - intros f s. repeat split. apply Forall2_same. auto.
  - intros f s. repeat split. apply Forall2_same. auto.
Qed.

#[export] Instance job_frame_Frame (j : string) : Frame (job_frame j).
Proof.
  split.
  - intros s. repeat split; apply Forall2_same; auto.
  - intros s1 s2 s3 (I1 & C1 & T1 & J1) (I2 & C2 & T2 & J2).
    repeat split; try congruence.
    + eapply Forall2_compose; [|exact T1|exact T2].
      intros x y z (Hi & Hb) (Hi' & Hb'). split; congruence.
    + eapply Forall2_compose; [|exact J1|exact J2].
      intros x y z (Hi & Ht & Hk) (Hi' & Ht' & Hk').
      repeat split; try congruence.
      intros Hx. rewrite Hk', Hk; auto. congruence.
  - intros f s. repeat split; apply Forall2_same; auto.
  - intros f s. repeat split; apply Forall2_same; auto.
Qed.

#[export] Instance log_grows_Frame : Frame log_grows.
Proof.
  split.
  - intros s. exists []. rewrite app_nil_r. reflexivity.
  - intros s1 s2 s3 [r1 H1] [r2 H2]. exists (r1 ++ r2)%list.
    rewrite H2, H1, app_assoc. reflexivity.
  - intros e s. exists [e]. reflexivity.
  - intros f s. exists []. simpl. rewrite app_nil_r. reflexivity.
Qed.

Lemma task_frame_job_frame (t j : string) (s s' : St) :
  task_frame t s s' -> job_frame j s s'.
Proof.
  intros (J & I & C & T). repeat split; auto.
  - eapply Forall2_grow; [exact T|]. intros x y (Hi & Hb & _). auto.
  - rewrite J. apply Forall2_same. auto.
Qed.

Section Stable.

Context {R : St -> St -> Prop} {FR : Frame R}.

Lemma stable_ret {A : Type} (a : A) : stable R (ret a).
Proof. intros s. apply frame_refl. Qed.

Lemma stable_raise {A : Type} (e : exn) : stable R (@raise A e).
Proof. intros s. apply frame_refl. Qed.

Lemma stable_gets {A : Type} (f : St -> A) : stable R (gets f).
Proof. intros s. apply frame_refl. Qed.

Lemma stable_bind {A B : Type} (m : M A) (k : A -> M B) :
  stable R m -> (forall a, stable R (k a)) -> stable R (bind m k).
Proof.
  intros Hm Hk s. unfold bind. specialize (Hm s).
  destruct (m s) as [[a|e] s1]; simpl in *; auto.
  eapply frame_trans; [exact Hm|apply Hk].
Qed.

Lemma stable_try {A : Type} (m : M A) (h : exn -> M A) :
  stable R m -> (forall e, stable R (h e)) -> stable R (try_except m h).
Proof.
  intros Hm Hh s. unfold try_except. specialize (Hm s).
  destruct (m s) as [[a|e] s1]; simpl in *; auto.
  eapply frame_trans; [exact Hm|apply Hh].
Qed.

(** The same two rules at one initial state. *)
Lemma bind_from {A B : Type} (m : M A) (k : A -> M B) (s : St) :
  R s (snd (m s)) -> (forall a, stable R (k a)) -> R s (snd (bind m k s)).
Proof.
  intros Hm Hk. unfold bind.
  destruct (m s) as [[a|e] s1]; simpl in *; auto.
  eapply frame_trans; [exact Hm|apply Hk].
Qed.

Lemma try_from {A : Type} (m : M A) (h : exn -> M A) (s : St) :
  R s (snd (m s)) -> (forall e, stable R (h e)) ->
  R s (snd (try_except m h s)).
Proof.
  intros Hm Hh. unfold try_except.
  destruct (m s) as [[a|e] s1]; simpl in *; auto.
  eapply frame_trans; [exact Hm|apply Hh].
Qed.

Lemma stable_emit (e : Event) : stable R (emit e).
Proof. intros s. apply frame_emit. Qed.

Lemma stable_update_webhook (wid : string) (f : Webhook.t -> Webhook.t) :
  stable R (update_webhook wid f).
Proof. intros s. apply frame_webhooks. Qed.

Lemma stable_utcnow : stable R utcnow.
Proof. apply stable_gets. Qed.

End Stable.

(** Walks through service code, one construct at a time. *)
Ltac stable_step :=
  lazymatch goal with
  | |- stable _ (ret _) => apply stable_ret
  | |- stable _ (raise _) => apply stable_raise
  | |- stable _ (gets _) => apply stable_gets
  | |- stable _ utcnow => apply stable_utcnow
  | |- stable _ (emit _) => apply stable_emit
  | |- stable _ (update_webhook _ _) => apply stable_update_webhook
  | |- stable _ (bind _ _) => apply stable_bind; [|intro]
  | |- stable _ (try_except _ _) => apply stable_try; [|intro]
  | |- stable _ (let _ := _ in _) => cbv zeta
  | |- stable _ (match ?x with _ => _ end) => destruct x
  end.

Ltac stable_walk := repeat stable_step.

Section Collaborators.

Context {R : St -> St -> Prop} {FR : Frame R}.

Lemma stable_deliver (w : World) (self : WebhookService.t)
  (wid url : string) (payload : JSON) (signature : string)
  (attempts : list nat) :
  stable R (WebhookService.deliver w self wid url payload signature attempts).
Proof.
  induction attempts as [|attempt rest IH]; simpl.
  - apply stable_ret.
  - unfold WebhookService.asyncio_sleep. stable_walk; exact IH.
Qed.

Lemma stable_send_notification (w : World) (self : WebhookService.t)
  (wid : string) (payload : JSON) :
  stable R (WebhookService.send_notification w self wid payload).
Proof.
  unfold WebhookService.send_notification. stable_walk.
  apply stable_deliver.
Qed.

Lemma stable_notify (w : World) (target : option string) (payload : JSON) :
  stable R (TaskService.notify w target payload).
Proof.
  unfold TaskService.notify. stable_walk. apply stable_send_notification.
Qed.

Lemma stable_request_loop (w : World) (endpoint : string)
  (data : list (string * JSON)) (attempts : list nat) :
  stable R (UltraSafeClient.request_loop w endpoint data attempts).
Proof.
  induction attempts as [|attempt rest IH]; simpl; stable_walk; exact IH.
Qed.

Lemma stable_invoke (w : World) (endpoint : string)
  (data : list (string * JSON)) :
  stable R (UltraSafeClient.invoke w endpoint data).
Proof.
  unfold UltraSafeClient.invoke, UltraSafeClient._make_request.
  stable_walk. apply stable_request_loop.
Qed.

Lemma stable_handler (w : World) (task_type : string)
  (handler : World -> string -> list (string * JSON) -> option string
             -> M JSON)
  (text : string) (parameters : list (string * JSON))
  (context : option string) :
  TaskService.task_handlers task_type = Some handler ->
  stable R (handler w text parameters context).
Proof.
  unfold TaskService.task_handlers.
  repeat match goal with
         | |- context [if ?b then _ else _] => destruct b
         end; intros [= <-];
    unfold TaskService._handle_classification,
      TaskService._handle_entity_extraction,
      TaskService._handle_summarization,
      TaskService._handle_sentiment_analysis, TaskService.subscript,
      UltraSafeClient.classify_text, UltraSafeClient.extract_entities,
      UltraSafeClient.summarize_text, UltraSafeClient.analyze_sentiment;
    stable_walk; apply stable_invoke.
Qed.

Lemma stable_get_relevant_context (w : World) (query : string)
  (max_length : JSON) :
  stable R (RAGService.get_relevant_context w query max_length).
Proof.
  unfold RAGService.get_relevant_context, RAGService.search_similar.
  stable_walk.
Qed.

End Collaborators.

(** ** Webhook dispatcher *)

Lemma find_webhook_update (wid : string) (f : Webhook.t -> Webhook.t)
  (s : St) (x : Webhook.t) :
  (forall y, Webhook.id (f y) = Webhook.id y) ->
  find_webhook wid s = Some x ->
  find_webhook wid (snd (update_webhook wid f s)) = Some (f x).
Proof.
  intros Hid Hx. unfold find_webhook, update_webhook, modify; simpl.
  apply (find_map_update (fun y => (Webhook.id y =? wid)%string) f); auto.
  intros y. rewrite Hid. reflexivity.
Qed.

Lemma find_webhook_emit (wid : string) (e : Event) (s : St) :
  find_webhook wid (snd (emit e s)) = find_webhook wid s.
Proof. reflexivity. Qed.


(** What the first turn of the delivery loop does when the endpoint fails
    outside the [httpx.HTTPError] hierarchy: the failure is counted, and the
    threshold is not looked at. *)
Lemma deliver_other_failure (w : World) (self : WebhookService.t)
  (wid url : string) (payload : JSON) (signature : string)
  (attempt : nat) (rest : list nat) (s : St) (e : exn) :
  http_post w (List.length (log s)) url payload = Failed e ->
  is_http_error e = false ->
  WebhookService.deliver w self wid url payload signature (attempt :: rest) s
  = let s1 := snd (update_webhook wid Webhook.other_failed
                     (snd (emit (EvPost url payload wid signature) s))) in
    if (attempt <? WebhookService.max_retries self - 1)%nat
    then (Raise (NameError "asyncio"), s1)
    else WebhookService.deliver w self wid url payload signature rest s1.
Proof.
  intros Hpost He. simpl. unfold bind at 1. simpl. rewrite Hpost.
  destruct e; try discriminate He;
    unfold bind, update_webhook, modify, WebhookService.asyncio_sleep, raise;
    simpl; destruct (attempt <? WebhookService.max_retries self - 1)%nat;
    reflexivity.
Qed.


Lemma send_notification_active (w : World) (self : WebhookService.t)
  (wid : string) (payload : JSON) (s : St) (webhook : Webhook.t) :
  find_webhook wid s = Some webhook ->
  Webhook.is_active webhook = true ->
  WebhookService.send_notification w self wid payload s
  = WebhookService.deliver w self wid (Webhook.url webhook) payload
      (WebhookService._generate_signature w payload (Webhook.secret webhook))
      (seq 0 (WebhookService.max_retries self)) s.
Proof.
  intros Hfind Hactive. unfold WebhookService.send_notification, bind, gets.
  rewrite Hfind, Hactive. reflexivity.
Qed.





(** C2, at the code: when the attempt fails outside the [httpx.HTTPError]
    hierarchy (the handler of lines 85-93) the failure is counted but the
    threshold is not checked, so the failure count reaches or passes the
    maximum while the webhook stays active. *)
Theorem other_failure_skips_deactivation :
  forall (w : World) (self : WebhookService.t) (wid : string)
         (payload : JSON) (s : St) (webhook : Webhook.t) (e : exn),
    find_webhook wid s = Some webhook ->
    Webhook.is_active webhook = true ->
    (1 <= WebhookService.max_retries self)%nat ->
    http_post w (List.length (log s)) (Webhook.url webhook) payload
    = Failed e ->
    is_http_error e = false ->
    Webhook.failure_count webhook + 1 >= MAX_WEBHOOK_FAILURES (settings w) ->
    exists webhook',
      find_webhook wid
        (exec (WebhookService.send_notification w self wid payload) s)
      = Some webhook' /\
      Webhook.failure_count webhook' = Webhook.failure_count webhook + 1 /\
      Webhook.is_active webhook' = true /\
      ~ suspended_at_threshold w webhook'.
Proof.
  intros w self wid payload s webhook e Hfind Hactive Hretries Hpost He Hreach.
  exists (Webhook.other_failed webhook). unfold exec.
  rewrite (send_notification_active _ _ _ _ _ _ Hfind Hactive).
  destruct (WebhookService.max_retries self) as [|n] eqn:Hn; [lia|].
  cbn [seq].
  rewrite (deliver_other_failure _ _ _ _ _ _ _ _ _ _ Hpost He).
  cbv zeta. rewrite Hn.
  assert (Hrow : find_webhook wid
            (snd (update_webhook wid Webhook.other_failed
                    (snd (emit (EvPost (Webhook.url webhook) payload wid
                                  (WebhookService._generate_signature w payload
                                     (Webhook.secret webhook))) s))))
          = Some (Webhook.other_failed webhook)).
  { apply find_webhook_update; [reflexivity|]. exact Hfind. }
  repeat split.
  - destruct (0 <? S n - 1)%nat eqn:Hlt; cbn [snd]; [exact Hrow|].
    destruct n; [exact Hrow|discriminate Hlt].
  - exact Hactive.
  - unfold suspended_at_threshold. simpl. rewrite Hactive.
    intros H. specialize (H Hreach). discriminate H.
Qed.

Lemma other_failure_skips_deactivation_witness :
  exists webhook',
    find_webhook "wh"
      (exec (WebhookService.send_notification Scenario.endpoint_invalid
               WebhookService.webhook_service "wh"
               (JDict [("event", JStr "test")]))
            (Scenario.store_with_hook 2))
    = Some webhook' /\
    Webhook.failure_count webhook'
    = Webhook.failure_count (Scenario.hook 2) + 1 /\
    Webhook.is_active webhook' = true /\
    ~ suspended_at_threshold Scenario.endpoint_invalid webhook'.
Proof.
  apply (other_failure_skips_deactivation Scenario.endpoint_invalid
           WebhookService.webhook_service "wh" (JDict [("event", JStr "test")])
           (Scenario.store_with_hook 2) (Scenario.hook 2)
           (OtherException "Request URL is missing a protocol")).
  - reflexivity.
  - reflexivity.
  - simpl. lia.
  - reflexivity.
  - reflexivity.
  - simpl. lia.
Defined.

(** *** The subscribed events *)

Lemma find_webhook_resubscribe (g : string -> list string) (wid : string)
  (s : St) :
  find_webhook wid (resubscribe g s)
  = option_map (fun x => Webhook.set_events (g (Webhook.id x)) x)
      (find_webhook wid s).
Proof.
  unfold find_webhook, resubscribe; simpl.
  induction (webhooks s) as [|x l IH]; simpl; [reflexivity|].
  destruct (Webhook.id x =? wid)%string; [reflexivity|exact IH].
Qed.

Lemma update_webhook_resubscribe (g : string -> list string) (wid : string)
  (f : Webhook.t -> Webhook.t) (s : St) :
  (forall x ev, f (Webhook.set_events ev x) = Webhook.set_events ev (f x)) ->
  (forall x, Webhook.id (f x) = Webhook.id x) ->
  snd (update_webhook wid f (resubscribe g s))
  = resubscribe g (snd (update_webhook wid f s)).
Proof.
  intros Hcomm Hid. unfold update_webhook, modify, resubscribe, with_webhooks.
  simpl. f_equal. rewrite !map_map. apply map_ext. intros x. simpl.
  destruct (Webhook.id x =? wid)%string.
  - rewrite Hcomm, Hid. reflexivity.
  - reflexivity.
Qed.

Lemma emit_resubscribe (g : string -> list string) (e : Event) (s : St) :
  emit e (resubscribe g s)
  = (fst (emit e s), resubscribe g (snd (emit e s))).
Proof. reflexivity. Qed.

(** One turn of the delivery loop, by the answer of the endpoint. *)
Lemma deliver_turn (w : World) (self : WebhookService.t) (wid url : string)
  (payload : JSON) (signature : string) (attempt : nat) (rest : list nat)
  (s : St) :
  WebhookService.deliver w self wid url payload signature (attempt :: rest) s
  = let s1 := snd (emit (EvPost url payload wid signature) s) in
    match http_post w (List.length (log s)) url payload with
    | Responded code _ =>
        (Return true,
         snd (update_webhook wid (Webhook.delivered (clock s1) code) s1))
    | Failed (HTTPError code _) =>
        let s2 := snd (update_webhook wid (Webhook.http_failed code) s1) in
        match find_webhook wid s2 with
        | None => (Raise (AttributeError "webhook row is gone"), s2)
        | Some webhook =>
            if Webhook.failure_count webhook
               >=? MAX_WEBHOOK_FAILURES (settings w)
            then (Return false, snd (update_webhook wid Webhook.deactivate s2))
            else after_failed_attempt w self wid url payload signature
                   attempt rest s2
        end
    | Failed _ =>
        after_failed_attempt w self wid url payload signature attempt rest
          (snd (update_webhook wid Webhook.other_failed s1))
    end.
Proof.
  simpl. unfold bind at 1. simpl.
  destruct (http_post w (List.length (log s)) url payload) as [code body|e].
  - reflexivity.
  - destruct e; try reflexivity.
    unfold bind at 1. simpl. unfold bind at 1. unfold gets. simpl.
    match goal with
    | |- context [find_webhook wid ?st] => destruct (find_webhook wid st)
    end; [|reflexivity].
    destruct (Webhook.failure_count t >=? MAX_WEBHOOK_FAILURES (settings w));
      reflexivity.
Qed.

Lemma deliver_resubscribe (g : string -> list string) (w : World)
  (self : WebhookService.t) (wid url : string) (payload : JSON)
  (signature : string) (attempts : list nat) :
  forall s,
    WebhookService.deliver w self wid url payload signature attempts
      (resubscribe g s)
    = (fst (WebhookService.deliver w self wid url payload signature
              attempts s),
       resubscribe g
         (snd (WebhookService.deliver w self wid url payload signature
                 attempts s))).
Proof.
  induction attempts as [|attempt rest IH]; intros s; [reflexivity|].
  assert (Hcont : forall s2,
    after_failed_attempt w self wid url payload signature attempt rest
      (resubscribe g s2)
    = (fst (after_failed_attempt w self wid url payload signature attempt
              rest s2),
       resubscribe g
         (snd (after_failed_attempt w self wid url payload signature attempt
                 rest s2)))).
  { intros s2.
    unfold after_failed_attempt, bind, WebhookService.asyncio_sleep, raise,
      ret.
    destruct (attempt <? WebhookService.max_retries self - 1)%nat;
      [reflexivity|apply IH]. }
  rewrite (deliver_turn w self wid url payload signature attempt rest
             (resubscribe g s)),
    (deliver_turn w self wid url payload signature attempt rest s).
  cbv zeta. rewrite emit_resubscribe. cbn [snd].
  change (log (resubscribe g s)) with (log s).
  set (s1 := snd (emit (EvPost url payload wid signature) s)).
  destruct (http_post w (List.length (log s)) url payload) as [code body|e].
  - change (clock (resubscribe g s1)) with (clock s1).
    rewrite update_webhook_resubscribe by reflexivity. reflexivity.
  - destruct e as [m|k|m|m|n|code m|m];
      try (rewrite update_webhook_resubscribe by reflexivity; apply Hcont).
    rewrite update_webhook_resubscribe by reflexivity.
    set (s2 := snd (update_webhook wid (Webhook.http_failed code) s1)).
    rewrite find_webhook_resubscribe.
    destruct (find_webhook wid s2) as [x|]; unfold option_map;
      [|reflexivity].
    change (Webhook.failure_count
              (Webhook.set_events (g (Webhook.id x)) x))
      with (Webhook.failure_count x).
    destruct (Webhook.failure_count x >=? MAX_WEBHOOK_FAILURES (settings w)).
    + rewrite update_webhook_resubscribe by reflexivity. reflexivity.
    + apply Hcont.
Qed.

Lemma deliver_posts_first (w : World) (self : WebhookService.t)
  (wid url : string) (payload : JSON) (signature : string) (attempt : nat)
  (rest : list nat) (s : St) :
  exists later,
    log (snd (WebhookService.deliver w self wid url payload signature
                (attempt :: rest) s))
    = (log s ++ EvPost url payload wid signature :: later)%list.
Proof.
  assert (Hgrow : forall (m : M bool) s1,
            stable log_grows m ->
            log s1 = (log s ++ [EvPost url payload wid signature])%list ->
            exists later,
              log (snd (m s1))
              = (log s ++ EvPost url payload wid signature :: later)%list).
  { intros m s1 Hm Hs1. destruct (Hm s1) as [later Hlater].
    exists later. rewrite Hlater, Hs1, <- app_assoc. reflexivity. }
  simpl. unfold bind at 1. simpl.
  apply Hgrow; [|reflexivity].
  unfold WebhookService.asyncio_sleep.
  repeat stable_step; apply stable_deliver.
Qed.

(** C10: on a known, active webhook [send_notification] posts the payload
    to the webhook's URL whatever the payload and its event name are, and
    the [events] column is never read: replacing the subscribed events of
    every webhook changes neither the result nor anything else that is
    written. *)
Theorem events_never_consulted :
  forall (w : World) (self : WebhookService.t) (wid : string)
         (payload : JSON) (s : St) (webhook : Webhook.t),
    find_webhook wid s = Some webhook ->
    Webhook.is_active webhook = true ->
    (1 <= WebhookService.max_retries self)%nat ->
    (exists later,
       log (exec (WebhookService.send_notification w self wid payload) s)
       = (log s
          ++ EvPost (Webhook.url webhook) payload wid
               (WebhookService._generate_signature w payload
                  (Webhook.secret webhook))
          :: later)%list) /\
    (forall g : string -> list string,
       WebhookService.send_notification w self wid payload (resubscribe g s)
       = (eval (WebhookService.send_notification w self wid payload) s,
          resubscribe g
            (exec (WebhookService.send_notification w self wid payload) s))).
Proof.
  intros w self wid payload s webhook Hfind Hactive Hretries. split.
  - unfold exec.
    rewrite (send_notification_active _ _ _ _ _ _ Hfind Hactive).
    destruct (WebhookService.max_retries self) as [|n]; [lia|]. cbn [seq].
    apply deliver_posts_first.
  - intros g. unfold eval, exec.
    rewrite (send_notification_active _ _ _ _ _ _ Hfind Hactive).
    rewrite (send_notification_active w self wid payload (resubscribe g s)
               (Webhook.set_events (g (Webhook.id webhook)) webhook)).
    + apply deliver_resubscribe.
    + rewrite find_webhook_resubscribe, Hfind. reflexivity.
    + exact Hactive.
Qed.

Lemma events_never_consulted_witness :
  (exists later,
     log (exec (WebhookService.send_notification Scenario.endpoint_down
                  WebhookService.webhook_service "wh"
                  (JDict [("event", JStr "task.completed")]))
               (Scenario.store_with_hook 0))
     = (log (Scenario.store_with_hook 0)
        ++ EvPost (Webhook.url (Scenario.hook 0))
             (JDict [("event", JStr "task.completed")]) "wh"
             (WebhookService._generate_signature Scenario.endpoint_down
                (JDict [("event", JStr "task.completed")])
                (Webhook.secret (Scenario.hook 0)))
        :: later)%list) /\
  (forall g : string -> list string,
     WebhookService.send_notification Scenario.endpoint_down
       WebhookService.webhook_service "wh"
       (JDict [("event", JStr "task.completed")])
       (resubscribe g (Scenario.store_with_hook 0))
     = (eval (WebhookService.send_notification Scenario.endpoint_down
                WebhookService.webhook_service "wh"
                (JDict [("event", JStr "task.completed")]))
             (Scenario.store_with_hook 0),
        resubscribe g
          (exec (WebhookService.send_notification Scenario.endpoint_down
                   WebhookService.webhook_service "wh"
                   (JDict [("event", JStr "task.completed")]))
                (Scenario.store_with_hook 0)))).
Proof.
  apply (events_never_consulted Scenario.endpoint_down
           WebhookService.webhook_service "wh"
           (JDict [("event", JStr "task.completed")])
           (Scenario.store_with_hook 0) (Scenario.hook 0)).
  - reflexivity.
  - reflexivity.
  - simpl. lia.
Defined.

(** ** Input fingerprint *)

(** C8, as stated, fails: the fingerprint does not see the task kind or
    the parameters.  With a collision-free hash, a classification into
    ["positive"] and a summarization of the same text have one
    fingerprint. *)
Lemma fingerprint_separates_counterexample :
  ~ (forall w : World, collision_free w -> fingerprint_separates w).
Proof.
  intros H.
  apply (H Scenario.endpoint_down (fun a b E => E)
           "classification" "I love this product"
           [("categories", JList [JStr "positive"])]
           "summarization" "I love this product" []).
  - discriminate.
  - reflexivity.
Qed.

(** C8, amended: the fingerprint is a deterministic hash of the input text
    alone, so with a collision-free hash two inputs have the same
    fingerprint exactly when their texts are equal; the cache key is made of
    the task kind and that fingerprint, and the parameters enter neither. *)
Theorem fingerprint_of_text_alone :
  forall w : World,
    collision_free w ->
    forall k1 t1 p1 k2 t2 p2,
      (submit_fingerprint w k1 t1 p1 = submit_fingerprint w k2 t2 p2
       <-> t1 = t2) /\
      (k1 = k2 -> t1 = t2 ->
       submit_cache_key w k1 t1 p1 = submit_cache_key w k2 t2 p2).
Proof.
  intros w Hfree k1 t1 p1 k2 t2 p2.
  unfold submit_cache_key, submit_fingerprint,
    TaskService._generate_input_hash.
  split.
  - split.
    + apply Hfree.
    + intros ->. reflexivity.
  - intros -> ->. reflexivity.
Qed.

Lemma fingerprint_of_text_alone_witness :
  (submit_fingerprint Scenario.endpoint_down "classification" "same text"
     [("categories", JList [JStr "positive"])]
   = submit_fingerprint Scenario.endpoint_down "summarization" "same text" []
   <-> "same text" = "same text") /\
  ("classification" = "summarization" -> "same text" = "same text" ->
   submit_cache_key Scenario.endpoint_down "classification" "same text"
     [("categories", JList [JStr "positive"])]
   = submit_cache_key Scenario.endpoint_down "summarization" "same text" []).
Proof.
  apply (fingerprint_of_text_alone Scenario.endpoint_down).
  intros a b E. exact E.
Defined.

(** ** Context provider *)

Lemma string_length_append (a b : string) :
  String.length (a ++ b) = (String.length a + String.length b)%nat.
Proof. induction a as [|c a IH]; simpl; [reflexivity|]. rewrite IH. reflexivity. Qed.

(** The loop includes the texts of a prefix of the matches, whole and in the
    order given, for as long as the accumulated length stays within the
    limit. *)
Lemma combine_prefix (limit : Z) (matches : list Match) :
  forall (context : list JSON) (current_length : Z) (out : list JSON),
    RAGService.combine matches (JNum limit) context current_length = inl out ->
    exists texts,
      map match_text (firstn (List.length texts) matches) = map Some texts /\
      out = (context ++ texts)%list /\
      (texts = [] \/ current_length + texts_length texts <= limit) /\
      (List.length texts = List.length matches \/
       exists m text n,
         nth_error matches (List.length texts) = Some m /\
         match_text m = Some text /\ py_len text = inl n /\
         current_length + texts_length texts + n > limit).
Proof.
  induction matches as [|m rest IH]; intros context current_length out Hout.
  - injection Hout as <-. exists []. simpl. rewrite app_nil_r. auto.
  - simpl in Hout. fold (match_text m) in Hout.
    destruct (match_text m) as [text|] eqn:Htext; [|discriminate].
    destruct (py_len text) as [n|e] eqn:Hlen; [|discriminate].
    simpl in Hout.
    destruct (current_length + n >? limit) eqn:Hover.
    + injection Hout as <-. exists []. simpl. rewrite app_nil_r.
      repeat split; auto. right. exists m, text, n.
      repeat split; auto. apply Z.gtb_lt in Hover. lia.
    + apply IH in Hout.
      destruct Hout as (texts & Hmap & Hctx & Hfit & Hmax).
      exists (text :: texts). simpl.
      assert (Hn : text_length text = n)
        by (unfold text_length; rewrite Hlen; reflexivity).
      rewrite Hn. repeat split.
      * rewrite Htext, Hmap. reflexivity.
      * rewrite Hctx, <- app_assoc. reflexivity.
      * right. assert (current_length + n <= limit).
        { pose proof (Z.gtb_spec (current_length + n) limit) as Hs.
          rewrite Hover in Hs. inversion Hs. assumption. }
        destruct Hfit as [-> | Hfit]; simpl; lia.
      * destruct Hmax as [Hall | (m' & text' & n' & Hnth & Ht & Hl & Hgt)].
        -- left. congruence.
        -- right. exists m', text', n'. repeat split; auto. lia.
Qed.

(** ["\n".join] succeeds on strings only, and puts one newline between two
    consecutive ones. *)
Lemma join_lines_strings (context : list JSON) (joined : string) :
  join_lines context = inl joined ->
  exists fragments,
    context = map JStr fragments /\
    joined = String.concat newline fragments /\
    Z.of_nat (String.length joined)
    = total_length fragments + Z.of_nat (List.length fragments - 1).
Proof.
  revert joined. induction context as [|text rest IH]; intros joined Hjoin.
  - injection Hjoin as <-. exists []. auto.
  - simpl in Hjoin. destruct text; try discriminate.
    destruct (join_lines rest) as [r|e]; [|discriminate].
    destruct (IH r eq_refl) as (fragments & Hrest & Hr & Hlen).
    injection Hjoin as <-. exists (s :: fragments). subst rest r.
    destruct fragments as [|f fragments].
    + simpl. repeat split; auto. lia.
    + repeat split.
      cbn [map]. rewrite !string_length_append.
      change (String.length newline) with 1%nat.
      change (total_length (s :: f :: fragments))
        with (Z.of_nat (String.length s) + total_length (f :: fragments)).
      cbn [List.length String.length] in *. lia.
Qed.

(** C9, as stated, fails on the returned string: with [max_length = 4] the
    fragments "ab" and "cd" are both included (their lengths add up to 4)
    and the context returned is the five characters "ab", newline, "cd". *)
Lemma context_within_max_length_counterexample :
  ~ context_within_max_length Scenario.two_fragments.
Proof.
  intros H.
  specialize (H "query" 4 empty_store ("ab" ++ newline ++ "cd") eq_refl).
  simpl in H. lia.
Qed.

Lemma texts_length_strings (fragments : list string) :
  texts_length (map JStr fragments) = total_length fragments.
Proof.
  induction fragments as [|f l IH]; simpl; [reflexivity|].
  rewrite IH. reflexivity.
Qed.

(** C9, amended: the context returned joins, with one newline between two
    consecutive ones, the texts of a prefix of the matches in the order
    [search_similar] returned them, each text whole; the prefix is the
    longest one whose texts have a total length within [max_length], so
    that total never exceeds [max_length], while the returned string is
    longer than the total by the separators. *)
Theorem context_is_a_fitting_prefix :
  forall (w : World) (query : string) (max_length : Z) (s : St)
         (context : string),
    eval (RAGService.get_relevant_context w query (JNum max_length)) s
    = Return (Some context) ->
    exists matches fragments,
      eval (RAGService.search_similar w query None) s = Return matches /\
      map match_text (firstn (List.length fragments) matches)
      = map (fun f => Some (JStr f)) fragments /\
      context = String.concat newline fragments /\
      (fragments = [] \/ total_length fragments <= max_length) /\
      Z.of_nat (String.length context)
      = total_length fragments + Z.of_nat (List.length fragments - 1) /\
      (List.length fragments = List.length matches \/
       exists m text n,
         nth_error matches (List.length fragments) = Some m /\
         match_text m = Some text /\ py_len text = inl n /\
         total_length fragments + n > max_length).
Proof.
  intros w query max_length s context.
  unfold eval, RAGService.get_relevant_context, try_except, bind.
  destruct (RAGService.search_similar w query None s) as [[matches|e] s1]
    eqn:Hsearch; [|discriminate].
  destruct matches as [|m rest] eqn:Hmatches; [discriminate|].
  rewrite <- Hmatches in *. clear Hmatches.
  destruct (RAGService.combine matches (JNum max_length) [] 0)
    as [out|e] eqn:Hcombine; [|discriminate].
  destruct (join_lines out) as [joined|e] eqn:Hjoin; [|discriminate].
  unfold ret. cbn [fst]. intros [= <-].
  apply combine_prefix in Hcombine.
  destruct Hcombine as (texts & Hmap & Hout & Hfit & Hmax).
  cbn [app] in Hout. subst out.
  apply join_lines_strings in Hjoin.
  destruct Hjoin as (fragments & -> & Hjoined & Hlen).
  rewrite texts_length_strings, length_map in *.
  exists matches, fragments.
  split; [reflexivity|].
  split; [rewrite Hmap, map_map; reflexivity|].
  split; [exact Hjoined|].
  split.
  { destruct Hfit as [Hnil | Hfit]; [left|right; lia].
    destruct fragments; [reflexivity|discriminate Hnil]. }
  split; [exact Hlen|].
  destruct Hmax as [Hall | (m' & text & n & Hnth & Ht & Hl & Hgt)];
    [left; exact Hall|right].
  exists m', text, n. repeat split; auto.
Qed.

Lemma context_is_a_fitting_prefix_witness :
  exists matches fragments,
    eval (RAGService.search_similar Scenario.two_fragments "query" None)
         empty_store
    = Return matches /\
    map match_text (firstn (List.length fragments) matches)
    = map (fun f => Some (JStr f)) fragments /\
    "ab" ++ newline ++ "cd" = String.concat newline fragments /\
    (fragments = [] \/ total_length fragments <= 4) /\
    Z.of_nat (String.length ("ab" ++ newline ++ "cd"))
    = total_length fragments + Z.of_nat (List.length fragments - 1) /\
    (List.length fragments = List.length matches \/
     exists m text n,
       nth_error matches (List.length fragments) = Some m /\
       match_text m = Some text /\ py_len text = inl n /\
       total_length fragments + n > 4).
Proof.
  apply (context_is_a_fitting_prefix Scenario.two_fragments "query" 4
           empty_store ("ab" ++ newline ++ "cd")).
  reflexivity.
Defined.

(** ** Task orchestrator: what processing leaves alone *)

#[export] Instance finds_same_Frame (tid : string) : Frame (finds_same tid).
Proof.
  split; unfold finds_same.
  - reflexivity.
  - intros s1 s2 s3 H1 H2. congruence.
  - reflexivity.
  - reflexivity.
Qed.

Lemma stable_weaken {A : Type} (R R' : St -> St -> Prop) (m : M A) :
  (forall s s', R s s' -> R' s s') -> stable R m -> stable R' m.
Proof. intros HR Hm s. apply HR, Hm. Qed.

Lemma task_frame_finds_same (t tid : string) (s s' : St) :
  t <> tid -> task_frame t s s' -> finds_same tid s s'.
Proof.
  intros Hne (_ & _ & _ & HT). unfold finds_same, find_task.
  induction HT as [|x x' l l' (Hid & _ & Hkeep) _ IH]; [reflexivity|].
  simpl. rewrite Hid.
  destruct (Task.id x =? tid)%string eqn:E; [|exact IH].
  apply String.eqb_eq in E. rewrite Hkeep; congruence.
Qed.

Lemma stable_update_task (t : string) (f : Task.t -> Task.t) :
  (forall x, Task.id (f x) = Task.id x /\
             Task.batch_job_id (f x) = Task.batch_job_id x) ->
  stable (task_frame t) (update_task t f).
Proof.
  intros Hf s. repeat split. simpl. apply Forall2_map_right.
  intros x. destruct (Task.id x =? t)%string eqn:E.
  - destruct (Hf x) as [Hi Hb]. repeat split; auto.
    intros Hne. apply String.eqb_eq in E. contradiction.
  - auto.
Qed.

Lemma cache_set_row (w : World) (key : string) (x : Task.t)
  (ttl : option Z) (s : St) :
  CacheService.set w key (OfTask x) ttl s = (Return false, s).
Proof. reflexivity. Qed.

Lemma stable_cache_set_row {R : St -> St -> Prop} {FR : Frame R} (w : World)
  (key : string) (x : Task.t) (ttl : option Z) :
  stable R (CacheService.set w key (OfTask x) ttl).
Proof. intros s. rewrite cache_set_row. apply frame_refl. Qed.

(** Walks through the code of the task service. *)
Ltac stable_service :=
  repeat
    lazymatch goal with
    | |- stable _ (TaskService.notify _ _ _) => apply stable_notify
    | |- stable _ (RAGService.get_relevant_context _ _ _) =>
        apply stable_get_relevant_context
    | |- stable _ (CacheService.set _ _ (OfTask _) _) =>
        apply stable_cache_set_row
    | |- stable _ (TaskService.read_parameters _ _) =>
        unfold TaskService.read_parameters
    | |- stable _ (update_task _ _) =>
        apply stable_update_task; intros; split; reflexivity
    | |- stable _ (TaskService.get_task _) => apply stable_gets
    | |- _ => stable_step
    end.

Lemma stable_process_body (w : World) (task : Task.t) :
  stable (task_frame (Task.id task)) (TaskService.process_body w task).
Proof.
  unfold TaskService.process_body.
  destruct (TaskService.task_handlers (Task.task_type task)) as [handler|]
    eqn:Hhandler.
  - stable_service. eapply stable_handler. exact Hhandler.
  - stable_service.
Qed.

Lemma stable_process_failed (w : World) (task : Task.t) (e : exn) :
  stable (task_frame (Task.id task)) (TaskService.process_failed w task e).
Proof. unfold TaskService.process_failed. stable_service. Qed.

Lemma find_task_id (tid : string) (s : St) (task : Task.t) :
  find_task tid s = Some task -> Task.id task = tid.
Proof.
  unfold find_task. intros H. apply find_some in H.
  apply String.eqb_eq, H.
Qed.

(** [_process_task] writes the rows of the task it is given, and their
    status, result, error and completion time only. *)
Lemma stable_process_task (w : World) (tid : string) :
  stable (task_frame tid) (TaskService._process_task w tid).
Proof.
  intros s. unfold TaskService._process_task, bind, gets.
  destruct (find_task tid s) as [task|] eqn:Hfind.
  - apply find_task_id in Hfind. subst tid.
    apply (stable_try (R := task_frame (Task.id task))).
    + apply stable_process_body.
    + apply stable_process_failed.
  - apply frame_refl.
Qed.

(** ** Task orchestrator: cache, result and error, batches with a target *)

#[export] Instance cache_same_Frame : Frame cache_same.
Proof.
  split; unfold cache_same.
  - reflexivity.
  - intros s1 s2 s3 H1 H2. congruence.
  - reflexivity.
  - reflexivity.
Qed.





(** C7, on its scenario: without a notification target, a batch of three
    tasks whose second inference fails ends completed with two completed
    and one failed task, and the error is in the results. *)
Lemma silent_batch_completes :
  exists job,
    eval Scenario.silent_batch empty_store = Return job /\
    BatchJob.status job = COMPLETED /\
    BatchJob.completed_tasks job = 2 /\ BatchJob.failed_tasks job = 1 /\
    BatchJob.results job
    = Some (JDict
              [("id-1", JDict [("sentiment", JStr "positive")]);
               ("id-2",
                JDict [("error",
                        JStr "Server error '500 Internal Server Error'")]);
               ("id-3", JDict [("sentiment", JStr "positive")])]).
Proof. eexists. split; [vm_compute; reflexivity|]. repeat split. Qed.


(** ** Task orchestrator: a task without a notification target *)

#[export] Instance tasks_same_Frame : Frame tasks_same.
Proof.
  split; unfold tasks_same.
  - reflexivity.
  - intros s1 s2 s3 H1 H2. congruence.
  - reflexivity.
  - reflexivity.
Qed.

Lemma rows_of_same (tid : string) (P : Task.t -> Prop) (s s' : St) :
  tasks_same s s' -> rows_of tid P s -> rows_of tid P s'.
Proof. unfold tasks_same, rows_of. intros ->. auto. Qed.

Lemma rows_of_update (tid : string) (P Q : Task.t -> Prop)
  (f : Task.t -> Task.t) (s : St) :
  (forall x, P x -> Q (f x)) ->
  rows_of tid P s -> rows_of tid Q (snd (update_task tid f s)).
Proof.
  intros Hf Hs x' Hin Hid. simpl in Hin. apply in_map_iff in Hin.
  destruct Hin as (x & <- & Hin).
  destruct (Task.id x =? tid)%string eqn:E.
  - apply Hf, (Hs x Hin). apply String.eqb_eq. exact E.
  - apply String.eqb_neq in E. contradiction.
Qed.

Lemma find_task_in (tid : string) (s : St) (task : Task.t) :
  find_task tid s = Some task -> In task (tasks s) /\ Task.id task = tid.
Proof.
  unfold find_task. intros H. apply find_some in H.
  split; [apply H|apply String.eqb_eq, H].
Qed.

(** A task none of whose rows refers to a job has no notification target. *)
Lemma no_job_no_target (tid : string) (s : St) :
  rows_of tid (fun x => Task.batch_job_id x = None) s ->
  TaskService.task_webhook tid s = None.
Proof.
  intros Hs. unfold TaskService.task_webhook.
  destruct (find_task tid s) as [task|] eqn:Hfind; [|reflexivity].
  apply find_task_in in Hfind. destruct Hfind as (Hin & Hid).
  rewrite (Hs task Hin Hid). reflexivity.
Qed.

(** Lines 72-116 on a blank task without a target: when the body returns
    the task is completed and has no error; when it raises the task is still
    blank. *)
Lemma process_body_blank (w : World) (task : Task.t) (s : St) :
  rows_of (Task.id task) blank s ->
  match fst (TaskService.process_body w task s) with
  | Return _ =>
      rows_of (Task.id task)
        (fun x => Task.status x = COMPLETED /\ Task.error x = None /\
                  Task.batch_job_id x = None)
        (snd (TaskService.process_body w task s))
  | Raise _ =>
      rows_of (Task.id task) blank (snd (TaskService.process_body w task s))
  end.
Proof.
  intros Hs.
  destruct (TaskService.process_body w task s) as [o s'] eqn:Hrun.
  cbn [fst snd]. unfold TaskService.process_body in Hrun. cbv zeta in Hrun.
  rewrite bind_run in Hrun.
  pose proof (rows_of_update (Task.id task) blank blank
                (Task.set_status PROCESSING) s (fun x H => H) Hs) as H1.
  destruct (update_task (Task.id task) (Task.set_status PROCESSING) s)
    as [[[]|e] s1] eqn:Hupdate; [|discriminate Hupdate].
  cbn [snd] in H1. clear Hupdate. rewrite bind_run in Hrun.
  unfold TaskService.read_parameters at 1 in Hrun.
  destruct (task_parameters w (Task.id task)) as [parameters|];
    [|injection Hrun as <- <-; exact H1].
  unfold ret at 1 in Hrun. rewrite bind_run in Hrun.
  assert (Hcontext : forall m : M (option string),
            stable tasks_same m ->
            rows_of (Task.id task) blank (snd (m s1))).
  { intros m Hm. eapply rows_of_same; [apply Hm|exact H1]. }
  match type of Hrun with
  | match ?m s1 with _ => _ end = _ =>
      assert (H2 : rows_of (Task.id task) blank (snd (m s1)))
        by (apply Hcontext;
            destruct (truthy (TaskService.get_default "use_rag" (JBool false)
                                parameters));
            [apply stable_get_relevant_context|apply stable_ret]);
      destruct (m s1) as [[context|e] s2]
  end; cbn [snd] in H2; [|injection Hrun as <- <-; exact H2].
  destruct (TaskService.task_handlers (Task.task_type task)) as [handler|]
    eqn:Hhandler; [|injection Hrun as <- <-; exact H2].
  rewrite bind_run in Hrun.
  pose proof (stable_handler (R := tasks_same) w (Task.task_type task)
                handler (Task.input_text task) parameters context Hhandler s2)
    as Hkeep.
  destruct (handler w (Task.input_text task) parameters context s2)
    as [[result|e] s3]; cbn [snd] in Hkeep;
    [|injection Hrun as <- <-; eapply rows_of_same; eauto].
  apply (rows_of_same _ _ _ _ Hkeep) in H2.
  rewrite bind_run in Hrun. unfold utcnow, gets at 1 in Hrun.
  rewrite bind_run in Hrun.
  match type of Hrun with
  | context [update_task (Task.id task) ?f s3] =>
      pose proof (rows_of_update (Task.id task) blank
                    (fun x => Task.status x = COMPLETED /\
                              Task.error x = None /\
                              Task.batch_job_id x = None)
                    f s3) as H4;
      destruct (update_task (Task.id task) f s3) as [[[]|e] s4] eqn:Hupdate;
      [|discriminate Hupdate]
  end.
  cbn [snd] in H4. clear Hupdate.
  assert (Hdone : rows_of (Task.id task)
                    (fun x => Task.status x = COMPLETED /\
                              Task.error x = None /\
                              Task.batch_job_id x = None) s4).
  { apply H4; [|exact H2]. intros x (_ & He & Hb). simpl. auto. }
  clear H4. rewrite bind_run in Hrun.
  match type of Hrun with
  | match ?m s4 with _ => _ end = _ =>
      assert (Hm : m s4 = (Return tt, s4))
  end.
  { destruct (CACHE_ENABLED (settings w)); [|reflexivity].
    rewrite bind_run. unfold gets at 1.
    destruct (find_task (Task.id task) s4); [|reflexivity].
    rewrite bind_run, cache_set_row. reflexivity. }
  rewrite Hm in Hrun. rewrite bind_run in Hrun. unfold gets at 1 in Hrun.
  rewrite no_job_no_target in Hrun.
  - unfold TaskService.notify, ret in Hrun. injection Hrun as <- <-.
    exact Hdone.
  - intros x Hin Hid. apply (Hdone x Hin Hid).
Qed.

Lemma finished_invariants (x : Task.t) :
  finished x -> result_xor_error x /\ unfinished_is_blank x.
Proof.
  intros [(Hs & He) | (Hs & Hr & He)]; split.
  - intros (_ & H). contradiction.
  - unfold unfinished_is_blank. rewrite Hs. discriminate.
  - intros (H & _). contradiction.
  - unfold unfinished_is_blank. rewrite Hs. discriminate.
Qed.

(** C4 and C7, off the notification path: on a blank task that has no
    notification target [_process_task] never raises, and it leaves the task
    completed without an error or failed with an error and without a
    result. *)
Lemma process_task_without_target (w : World) (tid : string) (s : St) :
  rows_of tid blank s ->
  fst (TaskService._process_task w tid s) = Return tt /\
  rows_of tid
    (fun x => finished x /\ result_xor_error x /\ unfinished_is_blank x)
    (snd (TaskService._process_task w tid s)).
Proof.
  intros Hs.
  assert (Hgoal : fst (TaskService._process_task w tid s) = Return tt /\
                  rows_of tid finished
                    (snd (TaskService._process_task w tid s))).
  { destruct (TaskService._process_task w tid s) as [o s'] eqn:Hrun.
    cbn [fst snd]. unfold TaskService._process_task in Hrun.
    rewrite bind_run in Hrun. unfold gets at 1 in Hrun.
    destruct (find_task tid s) as [task|] eqn:Hfind.
    - destruct (find_task_in _ _ _ Hfind) as (_ & <-).
      unfold try_except in Hrun.
      pose proof (process_body_blank w task s Hs) as Hbody.
      destruct (TaskService.process_body w task s) as [[[]|e] s1];
        cbn [fst snd] in Hbody.
      + injection Hrun as <- <-. split; [reflexivity|].
        intros x Hin Hid. left. destruct (Hbody x Hin Hid) as (H1 & H2 & _).
        auto.
      + unfold TaskService.process_failed in Hrun. cbv zeta in Hrun.
        rewrite bind_run in Hrun.
        match type of Hrun with
        | context [update_task (Task.id task) ?f s1] =>
            pose proof (rows_of_update (Task.id task) blank
                          (fun x => finished x /\
                                    Task.batch_job_id x = None) f s1) as H2;
            destruct (update_task (Task.id task) f s1) as [[[]|e'] s2]
              eqn:Hupdate; [|discriminate Hupdate]
        end.
        cbn [snd] in H2. clear Hupdate.
        assert (Hfailed : rows_of (Task.id task)
                            (fun x => finished x /\
                                      Task.batch_job_id x = None) s2).
        { apply H2; [|exact Hbody]. intros x (Hr & _ & Hb). split; [|exact Hb].
          right. simpl. repeat split; [exact Hr|discriminate]. }
        rewrite bind_run in Hrun. unfold gets at 1 in Hrun.
        rewrite no_job_no_target in Hrun.
        * unfold TaskService.notify, ret in Hrun. injection Hrun as <- <-.
          split; [reflexivity|]. intros x Hin Hid.
          apply (Hfailed x Hin Hid).
        * intros x Hin Hid. apply (Hfailed x Hin Hid).
    - unfold ret in Hrun. injection Hrun as <- <-. split; [reflexivity|].
      intros x Hin Hid. exfalso. unfold find_task in Hfind.
      apply (find_none _ _ Hfind) in Hin. apply String.eqb_neq in Hin.
      contradiction. }
  destruct Hgoal as (Hret & Hrows). split; [exact Hret|].
  intros x Hin Hid. pose proof (Hrows x Hin Hid) as Hx.
  split; [exact Hx|apply finished_invariants; exact Hx].
Qed.

(** ** Task state machine *)







Lemma stable_update_batch_job_finds (tid j : string)
  (f : BatchJob.t -> BatchJob.t) :
  stable (finds_same tid) (update_batch_job j f).
Proof. intros s. reflexivity. Qed.

Lemma stable_process_task_other (w : World) (t tid : string) :
  t <> tid -> stable (finds_same tid) (TaskService._process_task w t).
Proof.
  intros Hne. apply (stable_weaken (task_frame t)).
  - intros s s'. apply task_frame_finds_same. exact Hne.
  - apply stable_process_task.
Qed.

Lemma stable_batch_iter_other (w : World) (j tid : string) (task : Task.t)
  (results : list (string * JSON)) :
  Task.id task <> tid ->
  stable (finds_same tid) (TaskService.batch_iter w j task results).
Proof.
  intros Hne. unfold TaskService.batch_iter.
  apply stable_bind; [apply stable_process_task_other; exact Hne|intros _].
  repeat lazymatch goal with
         | |- stable _ (update_batch_job _ _) =>
             apply stable_update_batch_job_finds
         | |- stable _ (TaskService.get_task _) => apply stable_gets
         | |- _ => stable_step
         end.
Qed.

Lemma stable_batch_loop_other (w : World) (j tid : string)
  (todo : list Task.t) :
  ~ In tid (map Task.id todo) ->
  forall results,
    stable (finds_same tid) (TaskService.batch_loop w j todo results).
Proof.
  induction todo as [|task rest IH]; intros Hnot results; simpl.
  - apply stable_ret.
  - simpl in Hnot. apply stable_bind.
    + apply stable_batch_iter_other. intros E. apply Hnot. left. exact E.
    + intros results'. apply IH. intros Hin. apply Hnot. right. exact Hin.
Qed.

Lemma stable_batch_failed_finds (w : World) (j tid : string) (e : exn) :
  stable (finds_same tid) (TaskService.batch_failed w j e).
Proof.
  unfold TaskService.batch_failed.
  apply stable_bind; [apply stable_update_batch_job_finds|intros _].
  apply stable_bind; [apply stable_gets|intros target].
  apply stable_notify.
Qed.

(** [_process_batch_job] writes the tasks of the job only. *)
Lemma process_batch_job_other (w : World) (j tid : string) (s : St) :
  ~ In tid (map Task.id (TaskService.tasks_of_job j s)) ->
  finds_same tid s (snd (TaskService._process_batch_job w j s)).
Proof.
  intros Hnot. unfold TaskService._process_batch_job.
  unfold bind at 1. unfold gets at 1.
  destruct (find_batch_job j s); [|reflexivity].
  apply try_from; [|apply stable_batch_failed_finds].
  unfold TaskService.batch_body. unfold bind at 1.
  cbn [update_batch_job modify fst snd]. unfold bind at 1. unfold gets at 1.
  match goal with
  | |- finds_same tid s (snd (bind _ _ ?st)) =>
      apply (frame_trans s st); [reflexivity|];
      change (TaskService.tasks_of_job j st)
        with (TaskService.tasks_of_job j s)
  end.
  apply bind_from.
  - apply stable_batch_loop_other. exact Hnot.
  - intros results.
    apply stable_bind; [apply stable_utcnow|intros now].
    apply stable_bind; [apply stable_update_batch_job_finds|intros _].
    apply stable_bind; [apply stable_gets|intros target].
    apply stable_notify.
Qed.





(** ** Batch coordinator *)

#[export] Instance jobs_same_Frame : Frame jobs_same.
Proof.
  split; unfold jobs_same.
  - reflexivity.
  - intros s1 s2 s3 H1 H2. congruence.
  - reflexivity.
  - reflexivity.
Qed.











(** *** The rows a batch touches *)

Lemma stable_update_batch_job (j : string) (f : BatchJob.t -> BatchJob.t) :
  (forall x, BatchJob.id (f x) = BatchJob.id x /\
             BatchJob.total_tasks (f x) = BatchJob.total_tasks x) ->
  stable (job_frame j) (update_batch_job j f).
Proof.
  intros Hf s. repeat split.
  - apply Forall2_same. auto.
  - simpl. apply Forall2_map_right. intros x.
    destruct (BatchJob.id x =? j)%string eqn:E.
    + destruct (Hf x) as [Hi Ht]. repeat split; auto.
      intros Hne. apply String.eqb_eq in E. contradiction.
    + auto.
Qed.

Lemma stable_process_task_job (w : World) (t j : string) :
  stable (job_frame j) (TaskService._process_task w t).
Proof.
  apply (stable_weaken (task_frame t)).
  - intros s s'. apply task_frame_job_frame.
  - apply stable_process_task.
Qed.

(** Walks through the code of the batch coordinator. *)
Ltac stable_batch :=
  repeat
    lazymatch goal with
    | |- stable _ (TaskService.notify _ _ _) => apply stable_notify
    | |- stable _ (TaskService._process_task _ _) =>
        apply stable_process_task_job
    | |- stable _ (update_batch_job _ _) =>
        apply stable_update_batch_job; intros; split; reflexivity
    | |- stable _ (TaskService.get_task _) => apply stable_gets
    | |- stable _ (TaskService.get_batch_job _) => apply stable_gets
    | |- _ => stable_step
    end.

Lemma stable_batch_loop (w : World) (j : string) (todo : list Task.t) :
  forall results,
    stable (job_frame j) (TaskService.batch_loop w j todo results).
Proof.
  induction todo as [|task rest IH]; intros results; simpl.
  - apply stable_ret.
  - apply stable_bind; [|intros results'; apply IH].
    unfold TaskService.batch_iter. stable_batch.
Qed.

Lemma stable_process_batch_job (w : World) (j : string) :
  stable (job_frame j) (TaskService._process_batch_job w j).
Proof.
  unfold TaskService._process_batch_job, TaskService.batch_body,
    TaskService.batch_failed.
  stable_batch. apply stable_batch_loop.
Qed.

(** *** The rows of a new batch *)



(** *** Stores the system reaches *)


#[export] Instance extends_Frame : Frame extends.
Proof.
  split.
  - intros s. repeat split; eauto.
  - intros s1 s2 s3 (I1 & J1 & T1) (I2 & J2 & T2).
    repeat split; [lia|congruence|].
    intros x' j Hin Hj. destruct (T2 x' j Hin Hj) as (x & Hx & Hxj). eauto.
  - intros e s. repeat split; eauto.
  - intros f s. repeat split; eauto.
Qed.











(** ** Content cache *)

Lemma find_filter_keeps {A : Type} (p q : A -> bool) (l : list A) :
  (forall x, p x = true -> q x = true) ->
  find p (filter q l) = find p l.
Proof.
  intros H. induction l as [|x l IH]; simpl; [reflexivity|].
  destruct (q x) eqn:Eq; simpl.
  - destruct (p x); [reflexivity|exact IH].
  - destruct (p x) eqn:Ep; [|exact IH].
    apply H in Ep. congruence.
Qed.

Lemma find_filter_none {A : Type} (p : A -> bool) (l : list A) :
  find p (filter (fun x => negb (p x)) l) = None.
Proof.
  induction l as [|x l IH]; simpl; [reflexivity|].
  destruct (p x) eqn:E; simpl; [exact IH|]. rewrite E. exact IH.
Qed.

(** What a successful [setex] leaves. *)
Lemma set_stores (w : World) (key : string) (j : JSON) (ttl : option Z)
  (s : St) :
  0 < effective_ttl w ttl ->
  CacheService.set w key (OfJSON j) ttl s
  = (Return true,
     with_redis
       (fun l => (key, (j, clock s + effective_ttl w ttl))
                 :: filter (fun e => negb (fst e =? key)%string) l) s).
Proof.
  intros Hpos. unfold CacheService.set, try_except, json_dumps,
    CacheService.redis_setex.
  fold (effective_ttl w ttl).
  destruct (effective_ttl w ttl <=? 0) eqn:E; [apply Z.leb_le in E; lia|].
  reflexivity.
Qed.



(** X2: [set] never raises: it answers [True] when the value serializes and the
    TTL in effect is positive, and [False] otherwise, and then the cache is
    as it was. *)
Theorem cache_set_swallows_errors :
  forall (w : World) (key : string) (value : PyValue) (ttl : option Z)
         (s : St),
    eval (CacheService.set w key value ttl) s
    = Return (match json_dumps value with
              | inl _ => 0 <? effective_ttl w ttl
              | inr _ => false
              end) /\
    (eval (CacheService.set w key value ttl) s = Return false ->
     exec (CacheService.set w key value ttl) s = s).
Proof.
  intros w key value ttl s. unfold eval, exec.
  destruct value as [j|row]; [|split; reflexivity].
  cbn [json_dumps].
  destruct (Z.ltb_spec 0 (effective_ttl w ttl)) as [Hpos | Hnot].
  - rewrite (set_stores w key j ttl s Hpos). split; [reflexivity|].
    discriminate.
  - unfold CacheService.set, try_except, json_dumps,
      CacheService.redis_setex.
    fold (effective_ttl w ttl).
    destruct (effective_ttl w ttl <=? 0) eqn:E;
      [|apply Z.leb_gt in E; lia].
    split; reflexivity.
Qed.

(** X3: Writing one key leaves every other key as it was. *)
Theorem cache_set_other_key :
  forall (w : World) (key other : string) (value : PyValue)
         (ttl : option Z) (s : St),
    other <> key ->
    cached other (exec (CacheService.set w key value ttl) s)
    = cached other s.
Proof.
  intros w key other value ttl s Hne.
  destruct (cache_set_swallows_errors w key value ttl s) as (Hret & Hsame).
  destruct value as [j|row]; [|reflexivity].
  cbn [json_dumps] in Hret.
  destruct (Z.ltb_spec 0 (effective_ttl w ttl)) as [Hpos | Hnot].
  - unfold exec. rewrite (set_stores w key j ttl s Hpos).
    unfold cached, CacheService.redis_get. simpl.
    rewrite (proj2 (String.eqb_neq key other)) by congruence.
    rewrite find_filter_keeps; [reflexivity|].
    intros [k v] E. simpl in *. apply String.eqb_eq in E. subst k.
    rewrite (proj2 (String.eqb_neq other key) Hne). reflexivity.
  - rewrite (Hsame Hret). reflexivity.
Qed.

Lemma cache_set_other_key_witness :
  cached "summarization:abc"
    (exec (CacheService.set Scenario.endpoint_down "classification:abc"
             (OfJSON (JStr "positive")) None) empty_store)
  = cached "summarization:abc" empty_store.
Proof.
  apply (cache_set_other_key Scenario.endpoint_down "classification:abc"
           "summarization:abc" (OfJSON (JStr "positive")) None empty_store).
  discriminate.
Defined.

(** X4: [delete] tells whether the key held a live entry, leaves no entry under
    the key, and leaves every other key as it was. *)
Theorem cache_delete_removes :
  forall (key : string) (s : St),
    eval (CacheService.delete key) s
    = Return (match cached key s with Some _ => true | None => false end) /\
    cached key (exec (CacheService.delete key) s) = None /\
    forall other, (other =? key)%string = false ->
      cached other (exec (CacheService.delete key) s) = cached other s.
Proof.
  intros key s. unfold eval, exec, CacheService.delete, bind, gets, modify,
    ret, cached. cbn [fst snd]. split; [reflexivity|]. split.
  - unfold CacheService.redis_get. simpl.
    rewrite (find_filter_none (fun e => (fst e =? key)%string)).
    reflexivity.
  - intros other Hne. unfold CacheService.redis_get. simpl.
    rewrite find_filter_keeps; [reflexivity|].
    intros [k v] E. simpl in *. apply String.eqb_eq in E. subst k.
    rewrite Hne. reflexivity.
Qed.



(** ** Inference client: the retry loop *)

Lemma requested_none (endpoint : string) (data : list (string * JSON))
  (s : St) : requested endpoint data 0 s = s.
Proof.
  destruct s. unfold requested, with_log. simpl. rewrite app_nil_r.
  reflexivity.
Qed.

Lemma requested_next (endpoint : string) (data : list (string * JSON))
  (k : nat) (s : St) :
  requested endpoint data k
    (with_log (fun l => (l ++ [EvApiRequest endpoint data])%list) s)
  = requested endpoint data (S k) s.
Proof.
  unfold requested, with_log. simpl. rewrite <- app_assoc. reflexivity.
Qed.

Lemma requested_last (endpoint : string) (data : list (string * JSON))
  (k : nat) (s : St) :
  with_log (fun l => (l ++ [EvApiRequest endpoint data])%list)
    (requested endpoint data k s)
  = requested endpoint data (S k) s.
Proof.
  unfold requested, with_log. simpl. rewrite <- app_assoc, <- repeat_cons.
  reflexivity.
Qed.

Lemma first_requests_fail_next (w : World) (endpoint : string)
  (data : list (string * JSON)) (s : St) (k : nat) :
  first_requests_fail w endpoint data s (S k) = true ->
  failed (api_response w (length (log s)) endpoint data) = true /\
  first_requests_fail w endpoint data
    (with_log (fun l => (l ++ [EvApiRequest endpoint data])%list) s) k
  = true.
Proof.
  unfold first_requests_fail. cbn [seq forallb].
  rewrite Nat.add_0_r. intros H. apply andb_prop in H as [H0 H].
  split; [exact H0|].
  rewrite forallb_forall in *. intros i Hi.
  assert (Hin : In (S i) (seq 1 k)) by (apply in_seq in Hi; apply in_seq; lia).
  specialize (H (S i) Hin).
  simpl. rewrite length_app. simpl.
  replace (length (log s) + 1 + i)%nat with (length (log s) + S i)%nat
    by lia.
  exact H.
Qed.

(** Failed requests that are not the last attempt are passed over. *)
Lemma request_loop_skips (w : World) (endpoint : string)
  (data : list (string * JSON)) :
  forall (k a m : nat) (s : St),
    (a + k < ULTRASAFE_MAX_RETRIES (settings w))%nat ->
    (k <= m)%nat ->
    first_requests_fail w endpoint data s k = true ->
    UltraSafeClient.request_loop w endpoint data (seq a m) s
    = UltraSafeClient.request_loop w endpoint data (seq (a + k) (m - k))
        (requested endpoint data k s).
Proof.
  induction k as [|k IH]; intros a m s Hlt Hle Hfail.
  - rewrite Nat.add_0_r, Nat.sub_0_r, requested_none. reflexivity.
  - destruct m as [|m]; [lia|].
    apply first_requests_fail_next in Hfail as [H0 Hrest].
    cbn [seq UltraSafeClient.request_loop]. rewrite bind_run.
    unfold emit at 1. cbn [fst snd].
    destruct (api_response w (length (log s)) endpoint data) as [c b|e];
      [discriminate|].
    destruct (Nat.eqb_spec a (ULTRASAFE_MAX_RETRIES (settings w) - 1));
      [lia|].
    rewrite (IH (S a) m _) by (try lia; exact Hrest).
    rewrite requested_next.
    replace (S a + k)%nat with (a + S k)%nat by lia.
    reflexivity.
Qed.

(** X6: The client retries until the API answers: when the first [k] requests
    fail, [k] being less than the number of attempts allowed, and the next
    one is answered, [_make_request] returns that answer's body after
    exactly [k + 1] requests, and nothing but the log of requests has
    changed. *)
Theorem make_request_retries_until_answer :
  forall (w : World) (endpoint : string) (data : list (string * JSON))
         (s : St) (k : nat) (code : Z) (body : JSON),
    (k < ULTRASAFE_MAX_RETRIES (settings w))%nat ->
    first_requests_fail w endpoint data s k = true ->
    api_response w (length (log s) + k) endpoint data = Responded code body ->
    UltraSafeClient._make_request w endpoint data s
    = (Return body, requested endpoint data (S k) s).
Proof.
  intros w endpoint data s k code body Hlt Hfail Hanswer.
  unfold UltraSafeClient._make_request.
  rewrite (request_loop_skips w endpoint data k 0 _ s) by (try lia; exact Hfail).
  destruct (ULTRASAFE_MAX_RETRIES (settings w) - k)%nat as [|m] eqn:E; [lia|].
  cbn [seq UltraSafeClient.request_loop]. rewrite bind_run.
  unfold emit at 1. cbn [fst snd].
  replace (length (log (requested endpoint data k s)))
    with (length (log s) + k)%nat
    by (unfold requested; simpl; rewrite length_app, repeat_length;
        reflexivity).
  rewrite Hanswer. unfold ret. rewrite requested_last. reflexivity.
Qed.

Lemma make_request_retries_until_answer_witness :
  UltraSafeClient._make_request (Worlds.flaky 2) "classify"
    [("text", JStr "hello")] empty_store
  = (Return (JDict [("sentiment", JStr "positive")]),
     requested "classify" [("text", JStr "hello")] 3 empty_store).
Proof.
  apply (make_request_retries_until_answer (Worlds.flaky 2) "classify"
           [("text", JStr "hello")] empty_store 2 200
           (JDict [("sentiment", JStr "positive")])).
  - simpl. lia.
  - reflexivity.
  - reflexivity.
Defined.

(** X7: The client gives up after the allowed number of attempts: when every
    one of them fails, [_make_request] raises the exception of the last
    request, after exactly that many requests. *)
Theorem make_request_gives_up :
  forall (w : World) (endpoint : string) (data : list (string * JSON))
         (s : St) (n : nat) (e : exn),
    ULTRASAFE_MAX_RETRIES (settings w) = S n ->
    first_requests_fail w endpoint data s n = true ->
    api_response w (length (log s) + n) endpoint data = Failed e ->
    UltraSafeClient._make_request w endpoint data s
    = (Raise e, requested endpoint data (S n) s).
Proof.
  intros w endpoint data s n e Hmax Hfail Hlast.
  unfold UltraSafeClient._make_request.
  rewrite (request_loop_skips w endpoint data n 0 _ s)
    by (try lia; exact Hfail).
  rewrite Hmax. replace (S n - n)%nat with 1%nat by lia.
  cbn [seq UltraSafeClient.request_loop]. rewrite bind_run.
  unfold emit at 1. cbn [fst snd].
  replace (length (log (requested endpoint data n s)))
    with (length (log s) + n)%nat
    by (unfold requested; simpl; rewrite length_app, repeat_length;
        reflexivity).
  rewrite Hlast, Hmax.
  replace (0 + n =? S n - 1)%nat with true
    by (symmetry; apply Nat.eqb_eq; lia).
  unfold raise. rewrite requested_last. reflexivity.
Qed.

Lemma make_request_gives_up_witness :
  UltraSafeClient._make_request (Worlds.flaky 3) "summarize"
    [("text", JStr "hello")] empty_store
  = (Raise (HTTPError (Some 500) "Server error '500 Internal Server Error'"),
     requested "summarize" [("text", JStr "hello")] 3 empty_store).
Proof.
  apply (make_request_gives_up (Worlds.flaky 3) "summarize"
           [("text", JStr "hello")] empty_store 2).
  - reflexivity.
  - reflexivity.
  - reflexivity.
Defined.

Lemma request_loop_bounded (w : World) (endpoint : string)
  (data : list (string * JSON)) :
  forall (attempts : list nat) (s : St),
    exists k, (k <= length attempts)%nat /\
      exec (UltraSafeClient.request_loop w endpoint data attempts) s
      = requested endpoint data k s.
Proof.
  induction attempts as [|attempt rest IH]; intros s.
  - exists 0%nat. split; [lia|]. rewrite requested_none. reflexivity.
  - unfold exec. cbn [UltraSafeClient.request_loop]. rewrite bind_run.
    unfold emit at 1. cbn [fst snd].
    destruct (api_response w (length (log s)) endpoint data) as [c b|e].
    + exists 1%nat. split; [simpl; lia|]. reflexivity.
    + destruct (attempt =? ULTRASAFE_MAX_RETRIES (settings w) - 1)%nat.
      * exists 1%nat. split; [simpl; lia|]. reflexivity.
      * destruct (IH (with_log
                        (fun l => (l ++ [EvApiRequest endpoint data])%list) s))
          as (k & Hk & Hrun).
        exists (S k). split; [simpl; lia|].
        unfold exec in Hrun. rewrite Hrun. apply requested_next.
Qed.

(** X8: Whatever the API answers, [_make_request] sends at most
    [ULTRASAFE_MAX_RETRIES] requests, all of them the same, and changes
    nothing but the log of requests. *)
Theorem make_request_bounded :
  forall (w : World) (endpoint : string) (data : list (string * JSON))
         (s : St),
    exists k, (k <= ULTRASAFE_MAX_RETRIES (settings w))%nat /\
      exec (UltraSafeClient._make_request w endpoint data) s
      = requested endpoint data k s.
Proof.
  intros w endpoint data s.
  destruct (request_loop_bounded w endpoint data
              (seq 0 (ULTRASAFE_MAX_RETRIES (settings w))) s)
    as (k & Hk & Hrun).
  rewrite length_seq in Hk. exists k. split; [exact Hk|exact Hrun].
Qed.

(** ** Webhook dispatcher: deliveries and registration *)

(** Lines 95-98 after the first attempt: the wait raises when another
    attempt is allowed, and the loop is over otherwise. *)
Lemma after_first_attempt (w : World) (self : WebhookService.t)
  (wid url : string) (payload : JSON) (signature : string) (n : nat)
  (s : St) :
  WebhookService.max_retries self = S n ->
  after_failed_attempt w self wid url payload signature 0 (seq 1 n) s
  = (if (n =? 0)%nat then Return false else Raise (NameError "asyncio"), s).
Proof.
  intros Hn. unfold after_failed_attempt. rewrite Hn.
  destruct n as [|n]; reflexivity.
Qed.

(** A call on a known, active webhook, by the answer of the endpoint. *)
Lemma send_notification_run (w : World) (self : WebhookService.t)
  (wid : string) (payload : JSON) (s : St) (webhook : Webhook.t) (n : nat) :
  find_webhook wid s = Some webhook ->
  Webhook.is_active webhook = true ->
  WebhookService.max_retries self = S n ->
  WebhookService.send_notification w self wid payload s
  = let s1 := snd (emit (EvPost (Webhook.url webhook) payload wid
                           (WebhookService._generate_signature w payload
                              (Webhook.secret webhook))) s) in
    let gave_up : outcome bool :=
      if (n =? 0)%nat then Return false else Raise (NameError "asyncio") in
    match http_post w (List.length (log s)) (Webhook.url webhook) payload with
    | Responded code _ =>
        (Return true,
         snd (update_webhook wid (Webhook.delivered (clock s) code) s1))
    | Failed e =>
        if is_http_error e
        then
          let s2 := snd (update_webhook wid
                           (Webhook.http_failed
                              (match e with
                               | HTTPError code _ => code
                               | _ => None
                               end)) s1) in
          if Webhook.failure_count webhook + 1
             >=? MAX_WEBHOOK_FAILURES (settings w)
          then (Return false, snd (update_webhook wid Webhook.deactivate s2))
          else (gave_up, s2)
        else (gave_up, snd (update_webhook wid Webhook.other_failed s1))
    end.
Proof.
  intros Hfind Hactive Hn.
  rewrite (send_notification_active _ _ _ _ _ _ Hfind Hactive).
  rewrite Hn. cbn [seq]. rewrite deliver_turn. cbv zeta.
  destruct (http_post w (List.length (log s)) (Webhook.url webhook) payload)
    as [code body|e]; [reflexivity|].
  destruct e as [m|k|m|m|m|code m|m]; cbn [is_http_error];
    try (apply after_first_attempt; exact Hn).
  rewrite (find_webhook_update wid (Webhook.http_failed code) _ webhook)
    by (try reflexivity; exact Hfind).
  change (Webhook.failure_count (Webhook.http_failed code webhook))
    with (Webhook.failure_count webhook + 1).
  destruct (Webhook.failure_count webhook + 1
            >=? MAX_WEBHOOK_FAILURES (settings w)); [reflexivity|].
  apply after_first_attempt; exact Hn.
Qed.

(** X9: A delivery the endpoint accepts returns [True], resets the failure
    count of the webhook to zero whatever it was, and records the status
    code and the time of the call; the webhook stays active. *)
Theorem accepted_delivery_resets_failures :
  forall (w : World) (self : WebhookService.t) (wid : string)
         (payload : JSON) (s : St) (webhook : Webhook.t) (code : Z)
         (body : JSON),
    find_webhook wid s = Some webhook ->
    Webhook.is_active webhook = true ->
    (1 <= WebhookService.max_retries self)%nat ->
    http_post w (List.length (log s)) (Webhook.url webhook) payload
    = Responded code body ->
    eval (WebhookService.send_notification w self wid payload) s
    = Return true /\
    exists webhook',
      find_webhook wid
        (exec (WebhookService.send_notification w self wid payload) s)
      = Some webhook' /\
      Webhook.failure_count webhook' = 0 /\
      Webhook.last_status webhook' = Some code /\
      Webhook.last_triggered webhook' = Some (clock s) /\
      Webhook.is_active webhook' = true.
Proof.
  intros w self wid payload s webhook code body Hfind Hactive Hretries Hpost.
  destruct (WebhookService.max_retries self) as [|n] eqn:Hn; [lia|].
  unfold eval, exec.
  rewrite (send_notification_run w self wid payload s webhook n Hfind
             Hactive Hn).
  cbv zeta. rewrite Hpost. cbn [fst snd]. split; [reflexivity|].
  exists (Webhook.delivered (clock s) code webhook).
  split; [apply find_webhook_update; [reflexivity|exact Hfind]|].
  repeat split. exact Hactive.
Qed.

Lemma accepted_delivery_resets_failures_witness :
  eval (WebhookService.send_notification
          (Scenario.world (Some []) [] Scenario.positive Scenario.api)
          WebhookService.webhook_service "wh"
          (JDict [("event", JStr "test")])) (Scenario.store_with_hook 2)
  = Return true /\
  exists webhook',
    find_webhook "wh"
      (exec (WebhookService.send_notification
               (Scenario.world (Some []) [] Scenario.positive Scenario.api)
               WebhookService.webhook_service "wh"
               (JDict [("event", JStr "test")])) (Scenario.store_with_hook 2))
    = Some webhook' /\
    Webhook.failure_count webhook' = 0 /\
    Webhook.last_status webhook' = Some 200 /\
    Webhook.last_triggered webhook' = Some (clock (Scenario.store_with_hook 2)) /\
    Webhook.is_active webhook' = true.
Proof.
  apply (accepted_delivery_resets_failures
           (Scenario.world (Some []) [] Scenario.positive Scenario.api)
           WebhookService.webhook_service "wh"
           (JDict [("event", JStr "test")]) (Scenario.store_with_hook 2)
           (Scenario.hook 2) 200 (JDict [("sentiment", JStr "positive")])).
  - reflexivity.
  - reflexivity.
  - simpl. lia.
  - reflexivity.
Defined.



(** X11: Whatever the endpoint answers, a call on a known, active webhook sends
    exactly one request: a POST of the payload to the webhook's URL,
    carrying the webhook id and the signature of the payload under the
    webhook's secret.  No second attempt reaches the endpoint. *)
Theorem one_signed_post_per_call :
  forall (w : World) (self : WebhookService.t) (wid : string)
         (payload : JSON) (s : St) (webhook : Webhook.t),
    find_webhook wid s = Some webhook ->
    Webhook.is_active webhook = true ->
    (1 <= WebhookService.max_retries self)%nat ->
    log (exec (WebhookService.send_notification w self wid payload) s)
    = (log s ++ [signed_post w webhook payload])%list.
Proof.
  intros w self wid payload s webhook Hfind Hactive Hretries.
  destruct (WebhookService.max_retries self) as [|n] eqn:Hn; [lia|].
  unfold exec.
  rewrite (send_notification_run w self wid payload s webhook n Hfind
             Hactive Hn).
  cbv zeta. unfold signed_post.
  replace (Webhook.id webhook) with wid
    by (symmetry; apply String.eqb_eq;
        apply (find_some _ _ Hfind)).
  destruct (http_post w (List.length (log s)) (Webhook.url webhook) payload)
    as [code body|e]; [reflexivity|].
  destruct (is_http_error e); [|reflexivity].
  cbv zeta.
  destruct (Webhook.failure_count webhook + 1
            >=? MAX_WEBHOOK_FAILURES (settings w)); reflexivity.
Qed.

Lemma one_signed_post_per_call_witness :
  log (exec (WebhookService.send_notification Scenario.endpoint_invalid
               WebhookService.webhook_service "wh"
               (JDict [("event", JStr "test")])) (Scenario.store_with_hook 0))
  = (log (Scenario.store_with_hook 0)
       ++ [signed_post Scenario.endpoint_invalid (Scenario.hook 0)
             (JDict [("event", JStr "test")])])%list.
Proof.
  apply (one_signed_post_per_call Scenario.endpoint_invalid
           WebhookService.webhook_service "wh"
           (JDict [("event", JStr "test")]) (Scenario.store_with_hook 0)
           (Scenario.hook 0)).
  - reflexivity.
  - reflexivity.
  - simpl. lia.
Defined.

(** *** What a notification leaves alone *)

Lemma footprint_refl (wid : string) (s : St) :
  notification_footprint wid s s.
Proof.
  repeat split.
  - exists []. rewrite app_nil_r. split; reflexivity.
  - apply Forall2_same. auto.
Qed.

Lemma footprint_trans (wid : string) (s1 s2 s3 : St) :
  notification_footprint wid s1 s2 -> notification_footprint wid s2 s3 ->
  notification_footprint wid s1 s3.
Proof.
  intros (T1 & J1 & C1 & I1 & K1 & (l1 & L1 & P1) & W1)
         (T2 & J2 & C2 & I2 & K2 & (l2 & L2 & P2) & W2).
  repeat split; try congruence.
  - exists (l1 ++ l2)%list. split.
    + rewrite L2, L1, app_assoc. reflexivity.
    + rewrite forallb_app, P1, P2. reflexivity.
  - eapply Forall2_compose; [|exact W1|exact W2].
    intros x y z (Hi & Hu & Hs & Hk) (Hi' & Hu' & Hs' & Hk').
    repeat split; try congruence.
    intros Hx. rewrite Hk', Hk; auto. congruence.
Qed.

Lemma footprint_post (wid url : string) (payload : JSON)
  (webhook_id signature : string) (s : St) :
  notification_footprint wid s
    (snd (emit (EvPost url payload webhook_id signature) s)).
Proof.
  repeat split.
  - eexists. split; reflexivity.
  - apply Forall2_same. auto.
Qed.

Lemma footprint_update (wid : string) (f : Webhook.t -> Webhook.t) (s : St) :
  (forall x, Webhook.id (f x) = Webhook.id x /\
             Webhook.url (f x) = Webhook.url x /\
             Webhook.secret (f x) = Webhook.secret x) ->
  notification_footprint wid s (snd (update_webhook wid f s)).
Proof.
  intros Hf. repeat split.
  - exists []. simpl. rewrite app_nil_r. split; reflexivity.
  - simpl. apply Forall2_map_right. intros x.
    destruct (Webhook.id x =? wid)%string eqn:E.
    + destruct (Hf x) as (Hi & Hu & Hs). repeat split; auto.
      intros Hx. apply String.eqb_eq in E. contradiction.
    + auto.
Qed.

Lemma footprint_deliver (w : World) (self : WebhookService.t)
  (wid url : string) (payload : JSON) (signature : string)
  (attempts : list nat) :
  forall s,
    notification_footprint wid s
      (snd (WebhookService.deliver w self wid url payload signature
              attempts s)).
Proof.
  induction attempts as [|attempt rest IH]; intros s;
    [apply footprint_refl|].
  assert (Hafter : forall s2,
            notification_footprint wid s2
              (snd (after_failed_attempt w self wid url payload signature
                      attempt rest s2))).
  { intros s2. unfold after_failed_attempt, bind,
      WebhookService.asyncio_sleep, raise, ret.
    destruct (attempt <? WebhookService.max_retries self - 1)%nat;
      [apply footprint_refl|apply IH]. }
  rewrite deliver_turn. cbv zeta.
  eapply footprint_trans; [apply footprint_post|].
  set (s1 := snd (emit (EvPost url payload wid signature) s)).
  destruct (http_post w (List.length (log s)) url payload) as [code body|e].
  - apply footprint_update. auto.
  - destruct e as [m|k|m|m|m|code m|m];
      try (eapply footprint_trans;
           [apply (footprint_update wid Webhook.other_failed); auto
           |apply Hafter]).
    eapply footprint_trans;
      [apply (footprint_update wid (Webhook.http_failed code)); auto|].
    set (s2 := snd (update_webhook wid (Webhook.http_failed code) s1)).
    destruct (find_webhook wid s2) as [x|]; [|apply footprint_refl].
    destruct (Webhook.failure_count x >=? MAX_WEBHOOK_FAILURES (settings w));
      [apply footprint_update; auto|apply Hafter].
Qed.

(** X12: Whatever the webhook, the payload and the answers of the endpoint,
    [send_notification] writes nothing but the row of the webhook it is
    called for and the log of requests: tasks, batch jobs, cache,
    identifier count and clock are as before, the log gains POST requests
    only, every webhook keeps its id, URL and secret, and the rows of the
    other webhooks are untouched. *)
Theorem notification_touches_one_webhook :
  forall (w : World) (self : WebhookService.t) (wid : string)
         (payload : JSON) (s : St),
    notification_footprint wid s
      (exec (WebhookService.send_notification w self wid payload) s).
Proof.
  intros w self wid payload s. unfold exec,
    WebhookService.send_notification. rewrite bind_run. unfold gets at 1.
  destruct (find_webhook wid s) as [webhook|]; [|apply footprint_refl].
  destruct (negb (Webhook.is_active webhook)); [apply footprint_refl|].
  apply footprint_deliver.
Qed.

(** *** Registration *)

(** X13: [create_webhook] on a URL whose scheme is http or https, with a fresh
    identifier: the call returns the new row, which is active, carries the
    URL, the events, the description and a generated secret, has counted no
    failure, and is the row a lookup by its id finds; the rows that were
    there are still found. *)
Theorem create_webhook_registers :
  forall (w : World) (url : string) (events : list string)
         (description : option string) (s : St),
    WebhookService.validate_url w url = true ->
    find_webhook (uuid4 w (issued s)) s = None ->
    exists webhook,
      eval (WebhookService.create_webhook w url events description) s
      = Return webhook /\
      find_webhook (Webhook.id webhook)
        (exec (WebhookService.create_webhook w url events description) s)
      = Some webhook /\
      Webhook.url webhook = url /\
      Webhook.events webhook = events /\
      Webhook.description webhook = description /\
      Webhook.secret webhook = token_urlsafe w (issued s) /\
      Webhook.is_active webhook = true /\
      Webhook.failure_count webhook = 0 /\
      forall wid x,
        find_webhook wid s = Some x ->
        find_webhook wid
          (exec (WebhookService.create_webhook w url events description) s)
        = Some x.
Proof.
  intros w url events description s Hvalid Hfresh.
  unfold eval, exec, WebhookService.create_webhook. rewrite Hvalid.
  cbn [negb]. unfold bind, gets, generate_uuid, modify, ret. cbn [fst snd].
  eexists. split; [reflexivity|]. split.
  - unfold find_webhook in *. cbn [webhooks with_webhooks with_issued].
    cbn [Webhook.id].
    induction (webhooks s) as [|y l IH]; simpl.
    + rewrite String.eqb_refl. reflexivity.
    + simpl in Hfresh.
      destruct (Webhook.id y =? uuid4 w (issued s))%string;
        [discriminate|auto].
  - repeat split. intros wid x Hx. unfold find_webhook in *.
    cbn [webhooks with_webhooks with_issued].
    apply find_app_found. exact Hx.
Qed.

Lemma create_webhook_registers_witness :
  exists webhook,
    eval (WebhookService.create_webhook Scenario.endpoint_down
            "https://subscriber.example/hook" ["task.completed"] None)
         (Scenario.store_with_hook 0)
    = Return webhook /\
    find_webhook (Webhook.id webhook)
      (exec (WebhookService.create_webhook Scenario.endpoint_down
               "https://subscriber.example/hook" ["task.completed"] None)
            (Scenario.store_with_hook 0))
    = Some webhook /\
    Webhook.url webhook = "https://subscriber.example/hook" /\
    Webhook.events webhook = ["task.completed"] /\
    Webhook.description webhook = None /\
    Webhook.secret webhook
    = token_urlsafe Scenario.endpoint_down
        (issued (Scenario.store_with_hook 0)) /\
    Webhook.is_active webhook = true /\
    Webhook.failure_count webhook = 0 /\
    forall wid x,
      find_webhook wid (Scenario.store_with_hook 0) = Some x ->
      find_webhook wid
        (exec (WebhookService.create_webhook Scenario.endpoint_down
                 "https://subscriber.example/hook" ["task.completed"] None)
              (Scenario.store_with_hook 0))
      = Some x.
Proof.
  apply (create_webhook_registers Scenario.endpoint_down
           "https://subscriber.example/hook" ["task.completed"] None
           (Scenario.store_with_hook 0)).
  - reflexivity.
  - reflexivity.
Defined.

(** X14: [create_webhook] stores nothing for a URL that does not parse or whose
    scheme is neither http nor https: it raises [ValueError] and the store
    is as it was, no identifier drawn. *)
Theorem create_webhook_rejects_other_schemes :
  forall (w : World) (url : string) (events : list string)
         (description : option string) (s : St),
    url_scheme w url <> Some "http" ->
    url_scheme w url <> Some "https" ->
    WebhookService.create_webhook w url events description s
    = (Raise (ValueError "Invalid webhook URL"), s).
Proof.
  intros w url events description s Hhttp Hhttps.
  unfold WebhookService.create_webhook, WebhookService.validate_url.
  destruct (url_scheme w url) as [scheme|]; [|reflexivity].
  destruct (String.eqb_spec scheme "http") as [->|_]; [contradiction|].
  destruct (String.eqb_spec scheme "https") as [->|_]; [contradiction|].
  reflexivity.
Qed.

Lemma create_webhook_rejects_other_schemes_witness :
  WebhookService.create_webhook
    (Worlds.schemes (fun _ => Some "ftp")) "ftp://files.example/hook"
    ["task.completed"] None empty_store
  = (Raise (ValueError "Invalid webhook URL"), empty_store).
Proof.
  apply (create_webhook_rejects_other_schemes
           (Worlds.schemes (fun _ => Some "ftp")) "ftp://files.example/hook"
           ["task.completed"] None empty_store).
  - discriminate.
  - discriminate.
Defined.

(** ** Task orchestrator: early failures and single submissions *)












(** ** Task orchestrator: a single submission *)

Lemma find_app_missing {A : Type} (p : A -> bool) (l l' : list A) :
  find p l = None -> find p (l ++ l')%list = find p l'.
Proof.
  induction l as [|y l IH]; simpl; [reflexivity|].
  destruct (p y); [discriminate|exact IH].
Qed.

Lemma task_frame_found (t tid : string) (s s' : St) (x : Task.t) :
  task_frame t s s' -> find_task tid s = Some x ->
  exists x', find_task tid s' = Some x'.
Proof.
  intros (_ & _ & _ & HT). unfold find_task.
  induction HT as [|y y' l l' (Hid & _) _ IH]; simpl; [discriminate|].
  rewrite Hid. destruct (Task.id y =? tid)%string; [eauto|exact IH].
Qed.

(** Lines 48-62 with a fresh identifier: the new task is processed to the
    end and handed back finished. *)
Lemma submit_new_finishes (w : World) (task_type input_text input_hash : string)
  (s : St) :
  find_task (uuid4 w (issued s)) s = None ->
  exists task,
    fst (TaskService.submit_new w task_type input_text input_hash s)
    = Return (Created task) /\
    find_task (uuid4 w (issued s))
      (snd (TaskService.submit_new w task_type input_text input_hash s))
    = Some task /\
    finished task /\ result_xor_error task.
Proof.
  intros Hfresh.
  destruct (TaskService.submit_new w task_type input_text input_hash s)
    as [o s'] eqn:Hrun.
  cbn [fst snd]. unfold TaskService.submit_new in Hrun.
  rewrite bind_run in Hrun. unfold generate_uuid at 1 in Hrun.
  rewrite bind_run in Hrun. unfold utcnow, gets at 1 in Hrun.
  cbv zeta in Hrun. rewrite bind_run in Hrun. unfold modify at 1 in Hrun.
  set (tid := uuid4 w (issued s)) in *.
  match type of Hrun with
  | context [with_tasks (fun l => (l ++ [?row])%list) ?st] =>
      set (task := row) in *;
      set (s1 := with_tasks (fun l => (l ++ [task])%list) st) in *
  end.
  assert (Hblank : rows_of tid blank s1).
  { intros x Hin Hid. simpl in Hin. apply in_app_or in Hin.
    destruct Hin as [Hin|[<-|[]]]; [|repeat split].
    unfold find_task in Hfresh. apply (find_none _ _ Hfresh) in Hin.
    apply String.eqb_neq in Hin. contradiction. }
  assert (Hfound : find_task tid s1 = Some task).
  { unfold find_task in *. simpl.
    rewrite (find_app_missing _ _ _ Hfresh). simpl.
    rewrite String.eqb_refl. reflexivity. }
  destruct (process_task_without_target w tid s1 Hblank) as (Hret & Hrows).
  pose proof (stable_process_task w tid s1) as Hframe.
  rewrite bind_run in Hrun.
  destruct (TaskService._process_task w tid s1) as [o2 s2].
  cbn [fst snd] in Hret, Hrows, Hframe. subst o2.
  destruct (task_frame_found _ _ _ _ _ Hframe Hfound) as (x & Hx).
  rewrite bind_run in Hrun. unfold gets at 1 in Hrun. rewrite Hx in Hrun.
  unfold ret in Hrun. injection Hrun as <- <-.
  exists x. split; [reflexivity|]. split; [exact Hx|].
  destruct (find_task_in _ _ _ Hx) as (Hin & Hid).
  destruct (Hrows x Hin Hid) as (Hfin & Hxor & _). auto.
Qed.

(** X17: A single submission never raises.  With a fresh identifier,
    [create_task] returns either the new task, processed to the end
    (completed without an error, or failed with an error and without a
    result) and stored under its id, or, when the cache holds a truthy
    entry under the key of the request, that entry, and then nothing has
    been written. *)
Theorem single_submission_finishes :
  forall (w : World) (task_type input_text : string)
         (parameters : list (string * JSON)) (s : St),
    find_task (uuid4 w (issued s)) s = None ->
    exists r,
      eval (TaskService.create_task w task_type input_text parameters) s
      = Return r /\
      match r with
      | Created task =>
          find_task (uuid4 w (issued s))
            (exec (TaskService.create_task w task_type input_text parameters)
               s)
          = Some task /\
          finished task /\ result_xor_error task
      | Cached j =>
          CACHE_ENABLED (settings w) = true /\
          cached (submit_cache_key w task_type input_text parameters) s
          = Some j /\
          truthy j = true /\
          exec (TaskService.create_task w task_type input_text parameters) s
          = s
      end.
Proof.
  intros w task_type input_text parameters s Hfresh.
  pose proof (submit_new_finishes w task_type input_text
                (TaskService._generate_input_hash w input_text) s Hfresh)
    as (task & Hret & Hrow & Hfin).
  assert (Hcase :
    (exists j,
       CACHE_ENABLED (settings w) = true /\
       cached (submit_cache_key w task_type input_text parameters) s
       = Some j /\
       truthy j = true /\
       TaskService.create_task w task_type input_text parameters s
       = (Return (Cached j), s)) \/
    TaskService.create_task w task_type input_text parameters s
    = TaskService.submit_new w task_type input_text
        (TaskService._generate_input_hash w input_text) s).
  { unfold TaskService.create_task, cached, submit_cache_key. cbv zeta.
    rewrite bind_run.
    destruct (CACHE_ENABLED (settings w)); [|right; reflexivity].
    unfold CacheService.get, gets.
    destruct (CacheService.redis_get _ s) as [j|]; [|right; reflexivity].
    destruct (truthy j) eqn:Htruthy; [|right; reflexivity].
    left. exists j. repeat split. exact Htruthy. }
  unfold eval, exec.
  destruct Hcase as [(j & Henabled & Hget & Htruthy & Hrun) | Hrun];
    rewrite Hrun.
  - exists (Cached j). split; [reflexivity|]. auto.
  - exists (Created task). split; [exact Hret|]. split; [exact Hrow|].
    exact Hfin.
Qed.

Lemma single_submission_finishes_witness :
  exists r,
    eval (TaskService.create_task Scenario.endpoint_down "sentiment_analysis"
            "bad" []) empty_store
    = Return r /\
    match r with
    | Created task =>
        find_task (uuid4 Scenario.endpoint_down (issued empty_store))
          (exec (TaskService.create_task Scenario.endpoint_down
                   "sentiment_analysis" "bad" []) empty_store)
        = Some task /\
        finished task /\ result_xor_error task
    | Cached j =>
        CACHE_ENABLED (settings Scenario.endpoint_down) = true /\
        cached (submit_cache_key Scenario.endpoint_down "sentiment_analysis"
                  "bad" []) empty_store
        = Some j /\
        truthy j = true /\
        exec (TaskService.create_task Scenario.endpoint_down
                "sentiment_analysis" "bad" []) empty_store
        = empty_store
    end.
Proof.
  apply (single_submission_finishes Scenario.endpoint_down
           "sentiment_analysis" "bad" [] empty_store).
  reflexivity.
Defined.

(** ** Batches: cancellation *)

Lemma find_batch_job_update (jid : string) (f : BatchJob.t -> BatchJob.t)
  (s : St) (x : BatchJob.t) :
  (forall y, BatchJob.id (f y) = BatchJob.id y) ->
  find_batch_job jid s = Some x ->
  find_batch_job jid (snd (update_batch_job jid f s)) = Some (f x).
Proof.
  intros Hid Hx. unfold find_batch_job, update_batch_job, modify; simpl.
  apply (find_map_update (fun y => (BatchJob.id y =? jid)%string) f); auto.
  intros y. rewrite Hid. reflexivity.
Qed.

Lemma cancel_batch_job_run (j : string) (s : St) (job : BatchJob.t) :
  find_batch_job j s = Some job ->
  TaskService.cancel_batch_job j s
  = (Return (BatchJob.set_status CANCELLED job), cancelled_store j s).
Proof.
  intros Hfind.
  pose proof (find_batch_job_update j (BatchJob.set_status CANCELLED) s job
                (fun _ => eq_refl) Hfind) as Hrow.
  unfold TaskService.cancel_batch_job, cancelled_store. rewrite bind_run.
  unfold TaskService.get_batch_job at 1, gets at 1. rewrite Hfind.
  rewrite bind_run.
  destruct (update_batch_job j (BatchJob.set_status CANCELLED) s)
    as [[[]|e] s1] eqn:Hupdate; [|discriminate Hupdate].
  cbn [snd] in *.
  rewrite bind_run. unfold modify at 1. rewrite bind_run.
  unfold TaskService.get_batch_job, gets.
  change (find_batch_job j
            (with_tasks (map (TaskService.cancel_pending j)) s1))
    with (find_batch_job j s1).
  rewrite Hrow. reflexivity.
Qed.

Lemma cancel_pending_not_pending (j : string) (x : Task.t) :
  ~ pending_in j (TaskService.cancel_pending j x).
Proof.
  unfold pending_in, TaskService.cancel_pending.
  destruct (Task.batch_job_id x) as [j'|] eqn:Hjob;
    [|rewrite Hjob; intros [H _]; discriminate H].
  destruct (String.eqb_spec j' j) as [->|Hne].
  - destruct (Task.status x) eqn:Hstatus; simpl;
      try (rewrite Hstatus; intros [_ H]; discriminate H).
    intros [_ H]. discriminate H.
  - simpl. rewrite Hjob. intros [H _]. congruence.
Qed.

Lemma cancel_pending_other (j : string) (x : Task.t) :
  ~ pending_in j x -> TaskService.cancel_pending j x = x.
Proof.
  unfold pending_in, TaskService.cancel_pending. intros Hnot.
  destruct (Task.batch_job_id x) as [j'|]; [|reflexivity].
  destruct (String.eqb_spec j' j) as [->|Hne]; [|reflexivity].
  destruct (Task.status x); try reflexivity.
  exfalso. apply Hnot. split; reflexivity.
Qed.

(** X18: The service cancels a job that exists whatever its status, a finished
    one included: the returned row is stored under the job id with status
    cancelled and its counters untouched, no task of the job is pending
    afterwards, every row that is not a pending task of the job is as it
    was, and the rows of other jobs are as they were. *)
Theorem cancel_marks_job_and_pending_tasks :
  forall (j : string) (s : St) (job : BatchJob.t),
    find_batch_job j s = Some job ->
    exists job',
      eval (TaskService.cancel_batch_job j) s = Return job' /\
      find_batch_job j (exec (TaskService.cancel_batch_job j) s)
      = Some job' /\
      BatchJob.status job' = CANCELLED /\
      BatchJob.completed_tasks job' = BatchJob.completed_tasks job /\
      BatchJob.failed_tasks job' = BatchJob.failed_tasks job /\
      BatchJob.results job' = BatchJob.results job /\
      (forall x, In x (tasks (exec (TaskService.cancel_batch_job j) s)) ->
         ~ pending_in j x) /\
      (forall x, In x (tasks s) -> ~ pending_in j x ->
         In x (tasks (exec (TaskService.cancel_batch_job j) s))) /\
      (forall other, other <> j ->
         find_batch_job other (exec (TaskService.cancel_batch_job j) s)
         = find_batch_job other s).
Proof.
  intros j s job Hfind. unfold eval, exec.
  rewrite (cancel_batch_job_run j s job Hfind). cbn [fst snd].
  exists (BatchJob.set_status CANCELLED job).
  split; [reflexivity|]. split.
  { apply (find_batch_job_update j (BatchJob.set_status CANCELLED) s job
             (fun _ => eq_refl) Hfind). }
  repeat split.
  - intros x Hin. simpl in Hin. apply in_map_iff in Hin.
    destruct Hin as (x0 & <- & _). apply cancel_pending_not_pending.
  - intros x Hin Hnot. simpl. apply in_map_iff. exists x.
    split; [apply cancel_pending_other; exact Hnot|exact Hin].
  - intros other Hne. unfold find_batch_job. simpl.
    induction (batch_jobs s) as [|y l IH]; simpl; [reflexivity|].
    destruct (String.eqb_spec (BatchJob.id y) j) as [E|E]; simpl.
    + rewrite E. rewrite (string_eqb_false j other) by congruence.
      exact IH.
    + destruct (BatchJob.id y =? other)%string; [reflexivity|exact IH].
Qed.

Lemma cancel_marks_job_and_pending_tasks_witness :
  exists job',
    eval (TaskService.cancel_batch_job "id-0") Scenario.first_turn_done
    = Return job' /\
    find_batch_job "id-0"
      (exec (TaskService.cancel_batch_job "id-0") Scenario.first_turn_done)
    = Some job' /\
    BatchJob.status job' = CANCELLED /\
    BatchJob.completed_tasks job'
    = BatchJob.completed_tasks Worlds.job_after_first_turn /\
    BatchJob.failed_tasks job'
    = BatchJob.failed_tasks Worlds.job_after_first_turn /\
    BatchJob.results job' = BatchJob.results Worlds.job_after_first_turn /\
    (forall x,
       In x (tasks (exec (TaskService.cancel_batch_job "id-0")
                      Scenario.first_turn_done)) ->
       ~ pending_in "id-0" x) /\
    (forall x, In x (tasks Scenario.first_turn_done) ->
       ~ pending_in "id-0" x ->
       In x (tasks (exec (TaskService.cancel_batch_job "id-0")
                      Scenario.first_turn_done))) /\
    (forall other, other <> "id-0" ->
       find_batch_job other
         (exec (TaskService.cancel_batch_job "id-0") Scenario.first_turn_done)
       = find_batch_job other Scenario.first_turn_done).
Proof.
  apply (cancel_marks_job_and_pending_tasks "id-0" Scenario.first_turn_done
           Worlds.job_after_first_turn).
  vm_compute. reflexivity.
Defined.

Lemma cancel_pending_twice (j : string) (x : Task.t) :
  TaskService.cancel_pending j (TaskService.cancel_pending j x)
  = TaskService.cancel_pending j x.
Proof.
  apply cancel_pending_other, cancel_pending_not_pending.
Qed.

(** X19: Cancelling is idempotent: a second [cancel_batch_job] for the same id
    gives the outcome of the first, the same row or the same error, and
    leaves the store the first one left. *)
Theorem cancel_is_idempotent :
  forall (j : string) (s : St),
    TaskService.cancel_batch_job j (exec (TaskService.cancel_batch_job j) s)
    = (eval (TaskService.cancel_batch_job j) s,
       exec (TaskService.cancel_batch_job j) s).
Proof.
  intros j s. unfold eval, exec.
  destruct (find_batch_job j s) as [job|] eqn:Hfind.
  - rewrite (cancel_batch_job_run j s job Hfind). cbn [fst snd].
    assert (Hrow : find_batch_job j (cancelled_store j s)
                   = Some (BatchJob.set_status CANCELLED job)).
    { apply (find_batch_job_update j (BatchJob.set_status CANCELLED) s job
               (fun _ => eq_refl) Hfind). }
    rewrite (cancel_batch_job_run j _ _ Hrow). f_equal.
    unfold cancelled_store, update_batch_job, modify, with_tasks,
      with_batch_jobs. simpl. f_equal.
    + rewrite map_map. apply map_ext. intros x. apply cancel_pending_twice.
    + rewrite map_map. apply map_ext. intros x.
      destruct (BatchJob.id x =? j)%string eqn:E; simpl; rewrite E;
        reflexivity.
  - assert (Hrun : TaskService.cancel_batch_job j s
                   = (Raise (ValueError "Batch job not found"), s)).
    { unfold TaskService.cancel_batch_job. rewrite bind_run.
      unfold TaskService.get_batch_job, gets. rewrite Hfind. reflexivity. }
    rewrite Hrun. cbn [fst snd]. exact Hrun.
Qed.

(** ** Batch endpoints *)

(** X20: The cancel endpoint never lets an exception of the service through.
    It answers 404 for an unknown job and 400 for a job that is completed,
    failed or cancelled, and then the store is as it was; otherwise, when
    the job is pending or processing, it answers with the stored row, whose
    status is cancelled. *)
Theorem cancel_endpoint_guards_the_service :
  forall (job_id : string) (s : St),
    exists reply,
      eval (BatchEndpoints.cancel_batch_job job_id) s = Return reply /\
      match reply with
      | Ok job =>
          (exists before,
             find_batch_job job_id s = Some before /\
             terminal (BatchJob.status before) = false) /\
          find_batch_job job_id
            (exec (BatchEndpoints.cancel_batch_job job_id) s) = Some job /\
          BatchJob.status job = CANCELLED
      | HTTPException status_code _ =>
          exec (BatchEndpoints.cancel_batch_job job_id) s = s /\
          match find_batch_job job_id s with
          | None => status_code = 404
          | Some before =>
              status_code = 400 /\ terminal (BatchJob.status before) = true
          end
      end.
Proof.
  intros job_id s.
  destruct (BatchEndpoints.cancel_batch_job job_id s) as [o s'] eqn:Hrun.
  unfold eval, exec. rewrite Hrun. cbn [fst snd].
  unfold BatchEndpoints.cancel_batch_job in Hrun. rewrite bind_run in Hrun.
  unfold TaskService.get_batch_job at 1, gets at 1 in Hrun.
  destruct (find_batch_job job_id s) as [before|] eqn:Hfind.
  - destruct (terminal (BatchJob.status before)) eqn:Hterminal.
    + unfold ret in Hrun. injection Hrun as <- <-.
      eexists. split; [reflexivity|]. cbn beta iota.
      split; [reflexivity|]. auto.
    + rewrite bind_run, (cancel_batch_job_run job_id s before Hfind) in Hrun.
      unfold ret in Hrun. injection Hrun as <- <-.
      eexists. split; [reflexivity|]. cbn beta iota.
      split; [exists before; auto|]. split; [|reflexivity].
      apply (find_batch_job_update job_id (BatchJob.set_status CANCELLED) s
               before (fun _ => eq_refl) Hfind).
  - unfold ret in Hrun. injection Hrun as <- <-.
    eexists. split; [reflexivity|]. cbn beta iota.
    split; reflexivity.
Qed.

(** X21: The results endpoint is read-only and never raises.  It answers 404
    for an unknown job, 400 while the job is processing and 400 with the
    stored error text when it failed; in every other status, pending and
    cancelled included, it answers with the stored row. *)
Theorem results_endpoint_reads_only :
  forall (job_id : string) (s : St),
    exists reply,
      BatchEndpoints.get_batch_job_results job_id s = (Return reply, s) /\
      match find_batch_job job_id s with
      | None => reply = HTTPException 404 "Batch job not found"
      | Some job =>
          match BatchJob.status job with
          | PROCESSING =>
              reply = HTTPException 400 "Batch job is still processing"
          | FAILED =>
              exists detail, reply = HTTPException 400 detail /\
                (forall text, BatchJob.error job = Some text ->
                   detail = "Batch job failed: " ++ text)
          | _ => reply = Ok job
          end
      end.
Proof.
  intros job_id s. unfold BatchEndpoints.get_batch_job_results.
  rewrite bind_run. unfold TaskService.get_batch_job, gets.
  destruct (find_batch_job job_id s) as [job|];
    [|eexists; split; reflexivity].
  destruct (BatchJob.status job); simpl;
    try (eexists; split; reflexivity).
  eexists. split; [reflexivity|]. eexists. split; [reflexivity|].
  intros text ->. reflexivity.
Qed.

(** ** Batches without a notification target *)


#[export] Instance turn_frame_Frame (t : string) : Frame (turn_frame t).
Proof.
  split.
  - intros s. split; apply Forall2_same; auto.
  - intros s1 s2 s3 (T1 & J1) (T2 & J2). split.
    + eapply Forall2_compose; [|exact T1|exact T2].
      intros x y z (Hi & Hb & Hk) (Hi' & Hb' & Hk').
      repeat split; try congruence.
      intros Hx. rewrite Hk', Hk; auto. congruence.
    + eapply Forall2_compose; [|exact J1|exact J2].
      intros x y z (Hi & Hu) (Hi' & Hu'). split; congruence.
  - intros e s. split; apply Forall2_same; auto.
  - intros f s. split; apply Forall2_same; auto.
Qed.














(** *** The rows of a new batch, in full *)








(** ** What processing writes *)

(** X23: [_process_task] writes the rows of the task it is given and nothing
    else in the record store or the cache: batch jobs, cache and identifier
    count are as before, every task row keeps its id and its job, and the
    rows of the other tasks are untouched.  For an id that is not stored it
    does nothing at all. *)
Theorem processing_touches_one_task :
  forall (w : World) (tid : string) (s : St),
    task_frame tid s (exec (TaskService._process_task w tid) s) /\
    (find_task tid s = None ->
     TaskService._process_task w tid s = (Return tt, s)).
Proof.
  intros w tid s. split.
  - apply stable_process_task.
  - intros Hnone. unfold TaskService._process_task. rewrite bind_run.
    unfold gets at 1. rewrite Hnone. reflexivity.
Qed.

(** X24: [_process_batch_job] writes the rows of the job it is given and of that
    job's tasks: cache and identifier count are as before, every job row
    keeps its id and its number of tasks, the rows of the other jobs are
    untouched, every task row keeps its id and its job, and a task that
    does not belong to the job is found as it was. *)
Theorem batch_processing_touches_its_job :
  forall (w : World) (j : string) (s : St),
    job_frame j s (exec (TaskService._process_batch_job w j) s) /\
    forall tid,
      ~ In tid (map Task.id (TaskService.tasks_of_job j s)) ->
      find_task tid (exec (TaskService._process_batch_job w j) s)
      = find_task tid s.
Proof.
  intros w j s. split.
  - apply stable_process_batch_job.
  - intros tid Hnot. apply (process_batch_job_other w j tid s Hnot).
Qed.

(** ** The success path *)



(** ** Retrieval of context *)

(** X25: [get_relevant_context] never raises and searches the similarity index
    exactly once, for the query and the configured number of matches; it
    writes nothing else.  A context is returned only when the index answered
    with a match whose score is at least the threshold: an error of the
    index, of the metadata or of the limit gives [None]. *)
Theorem context_retrieval_never_raises :
  forall (w : World) (query : string) (max_length : JSON) (s : St),
    exists r,
      RAGService.get_relevant_context w query max_length s
      = (Return r, snd (emit (EvSearch query (RAG_TOP_K (settings w))) s)) /\
      forall context, r = Some context ->
        exists found m,
          index_query w (List.length (log s)) query (RAG_TOP_K (settings w))
          = inl found /\
          In m found /\
          Qle_bool (RAG_SCORE_THRESHOLD (settings w)) (match_score m) = true.
Proof.
  intros w query max_length s.
  unfold RAGService.get_relevant_context, try_except,
    RAGService.search_similar. cbv zeta. rewrite !bind_run.
  unfold emit at 1. cbn [fst snd].
  destruct (index_query w (List.length (log s)) query (RAG_TOP_K (settings w)))
    as [found|e]; [|eexists; split; [reflexivity|discriminate]].
  unfold ret at 1.
  destruct (filter _ found) as [|m rest] eqn:Hfilter;
    [eexists; split; [reflexivity|discriminate]|].
  assert (Hm : In m found /\
               Qle_bool (RAG_SCORE_THRESHOLD (settings w)) (match_score m)
               = true).
  { apply (filter_In (fun m => Qle_bool (RAG_SCORE_THRESHOLD (settings w))
                                 (match_score m))).
    rewrite Hfilter. left. reflexivity. }
  destruct (RAGService.combine (m :: rest) max_length [] 0) as [context|e];
    [|eexists; split; [reflexivity|discriminate]].
  destruct (join_lines context);
    (eexists; split; [reflexivity|]); [|discriminate].
  intros c _. exists found, m. split; [reflexivity|exact Hm].
Qed.

(** X26: When the first match is longer than the limit, the loop stops before
    any text is included and the context returned is the empty string, not
    [None], which is what is returned when there is no match at all. *)
Theorem oversized_first_fragment_gives_empty_context :
  forall (w : World) (query : string) (limit : Z) (s : St)
         (found : list Match) (m : Match) (rest : list Match)
         (text : string),
    index_query w (List.length (log s)) query (RAG_TOP_K (settings w))
    = inl found ->
    filter (fun m => Qle_bool (RAG_SCORE_THRESHOLD (settings w))
                       (match_score m)) found
    = m :: rest ->
    dict_get "text" (match_metadata m) = Some (JStr text) ->
    Z.of_nat (String.length text) > limit ->
    eval (RAGService.get_relevant_context w query (JNum limit)) s
    = Return (Some "").
Proof.
  intros w query limit s found m rest text Hindex Hfilter Htext Hlong.
  unfold eval, RAGService.get_relevant_context, try_except,
    RAGService.search_similar. cbv zeta. rewrite !bind_run.
  unfold emit at 1. cbn [fst snd]. rewrite Hindex. unfold ret at 1.
  rewrite Hfilter. cbn [RAGService.combine]. rewrite Htext.
  cbn [py_len py_int].
  replace (0 + Z.of_nat (String.length text) >? limit) with true
    by (symmetry; apply Z.gtb_lt; lia).
  reflexivity.
Qed.

Lemma oversized_first_fragment_gives_empty_context_witness :
  eval (RAGService.get_relevant_context Scenario.two_fragments "query"
          (JNum 1)) empty_store
  = Return (Some "").
Proof.
  apply (oversized_first_fragment_gives_empty_context Scenario.two_fragments
           "query" 1 empty_store
           [Scenario.fragment "ab"; Scenario.fragment "cd"]
           (Scenario.fragment "ab") [Scenario.fragment "cd"] "ab").
  - reflexivity.
  - reflexivity.
  - reflexivity.
  - simpl. lia.
Defined.
